(** * Type classifiers of js-part-0: a shallow embedding

    The repository holds three copies of one exercise:

    - [src/index.js], plain JavaScript, the _permissive_ variant
      (module [Permissive]): a sequence classifier given a non-array
      returns [[]] or [false];
    - [src/unnamed/part_001], plain JavaScript, the _strict_ variant
      (module [Strict]): a sequence classifier given a non-array throws a
      [TypeError];
    - [src/unnamed/part_000], TypeScript, strict as well (module [TS]).

    JavaScript values are modelled by the inductive type [Value]; the
    primitive operations the sources use ([typeof], [===], [isNaN],
    [isFinite], [Array.isArray], [instanceof], array indexing, [map],
    [every], [for ... of], [Set], [Map], [sort]) are modelled next, and the
    functions of each variant are then transcribed line by line. *)

From Stdlib Require Import ZArith List String Ascii Bool Arith Lia.
From Stdlib Require Import Sorting.Permutation Sorting.Sorted.
From Stdlib Require Import Floats.SpecFloat DecimalString.
Import ListNotations.

Set Warnings "-register-all,-notation-for-abbreviation".
Set Implicit Arguments.

Local Open Scope string_scope.
Local Open Scope list_scope.

(** ** Values *)

(** The built-in constructors that [getRealType] tests with [instanceof]. *)
Inductive Class : Type :=
  | CDate | CRegExp | CSet | CMap | CError
  | CArrayBuffer | CDataView | CPromise.

Definition class_eqb (c d : Class) : bool :=
  match c, d with
  | CDate, CDate | CRegExp, CRegExp | CSet, CSet | CMap, CMap
  | CError, CError | CArrayBuffer, CArrayBuffer
  | CDataView, CDataView | CPromise, CPromise => true
  | _, _ => false
  end.

(** A JavaScript value.

    - Numbers are IEEE-754 doubles ([spec_float]: signed zeros, signed
      infinities, NaN, finite values).
    - Symbols and objects have an identity ([id], [ref]): [===] compares
      them by identity, not by content.
    - An array is a reference to a list of _slots_; a slot is [Some v] or
      an empty slot [None] (a hole, as in the literal [[ , 1]]).
    - [chain] lists the built-in constructors whose [prototype] lies on the
      prototype chain of the object: [new Date()] has chain [[CDate]], a
      plain object or a [new String('12')] wrapper has chain [[]].  Arrays
      carry a chain too ([Object.setPrototypeOf([], Date.prototype)]).
    - [callable] tells a function object ([typeof] gives ["function"]) from
      any other object.

    Proxy objects, whose handlers run arbitrary code inside [Array.isArray]
    and [instanceof], are outside this model. *)
Inductive Value : Type :=
  | VUndefined
  | VNull
  | VBoolean (b : bool)
  | VNumber (x : spec_float)
  | VBigInt (z : Z)
  | VString (s : string)
  | VSymbol (id : nat)
  | VArray (ref : nat) (chain : list Class) (slots : list (option Value))
  | VObject (ref : nat) (callable : bool) (chain : list Class).

Notation Slot := (option Value) (only parsing).

(** Reading a slot, as [arr[i]] and the array iterator do: a hole reads as
    [undefined]. *)
Definition read (s : Slot) : Value :=
  match s with
  | Some v => v
  | None => VUndefined
  end.

(** ** Primitive operations *)

(** [typeof value] *)
Definition typeof (value : Value) : string :=
  match value with
  | VUndefined => "undefined"
  | VNull => "object"
  | VBoolean _ => "boolean"
  | VNumber _ => "number"
  | VBigInt _ => "bigint"
  | VString _ => "string"
  | VSymbol _ => "symbol"
  | VArray _ _ _ => "object"
  | VObject _ true _ => "function"
  | VObject _ false _ => "object"
  end.

(** [Array.isArray(value)] *)
Definition isArray (value : Value) : bool :=
  match value with
  | VArray _ _ _ => true
  | _ => false
  end.

(** The slots of an array; [length_of] is [arr.length] and [index arr i] is
    [arr[i]], which is [undefined] on a hole and past the end.  The sources
    use them on arrays only. *)
Definition slots_of (arr : Value) : list Slot :=
  match arr with
  | VArray _ _ slots => slots
  | _ => []
  end.

Definition length_of (arr : Value) : nat := List.length (slots_of arr).

Definition index (arr : Value) (i : nat) : Value :=
  read (nth i (slots_of arr) None).

(** The values a [for (const item of arr)] loop visits: every index below
    [arr.length], holes included. *)
Definition items (arr : Value) : list Value := map read (slots_of arr).

(** [value instanceof C] for a built-in constructor [C]: false on
    primitives, otherwise membership of [C.prototype] in the chain. *)
Definition instanceof (value : Value) (c : Class) : bool :=
  match value with
  | VArray _ chain _ | VObject _ _ chain => existsb (class_eqb c) chain
  | _ => false
  end.

(** [isNaN(x)] and [isFinite(x)] on a number. *)
Definition number_isNaN (x : spec_float) : bool :=
  match x with
  | S754_nan => true
  | _ => false
  end.

Definition number_isFinite (x : spec_float) : bool :=
  match x with
  | S754_nan | S754_infinity _ => false
  | _ => true
  end.

(** The global [isNaN] and [isFinite].  The sources call them under
    [typeof value === 'number'] only, where no coercion takes place; the
    answer given here for other values is never consulted. *)
Definition isNaN (value : Value) : bool :=
  match value with
  | VNumber x => number_isNaN x
  | _ => false
  end.

Definition isFinite (value : Value) : bool :=
  match value with
  | VNumber x => number_isFinite x
  | _ => false
  end.

(** The identity of a reference value. *)
Definition ref_of (value : Value) : option nat :=
  match value with
  | VArray r _ _ | VObject r _ _ => Some r
  | _ => None
  end.

(** [a === b]: primitives by value (IEEE equality on numbers, so
    [NaN !== NaN] and [+0 === -0]), symbols and objects by identity. *)
Definition strict_eq (a b : Value) : bool :=
  match a, b with
  | VUndefined, VUndefined => true
  | VNull, VNull => true
  | VBoolean x, VBoolean y => Bool.eqb x y
  | VNumber x, VNumber y => SFeqb x y
  | VBigInt x, VBigInt y => Z.eqb x y
  | VString x, VString y => String.eqb x y
  | VSymbol x, VSymbol y => Nat.eqb x y
  | _, _ =>
      match ref_of a, ref_of b with
      | Some r, Some r' => Nat.eqb r r'
      | _, _ => false
      end
  end.

(** What a call returns: a value, or a thrown [TypeError] with its
    message. *)
Inductive Result (A : Type) : Type :=
  | Ok (a : A)
  | TypeError (message : string).
Arguments Ok {A} a.
Arguments TypeError {A} message.

Definition not_an_array : string := "Passed parameter is not an array".

(** [arr.map(f)]: [f] is called on the assigned slots, holes stay holes. *)
Definition array_map {B : Type} (f : Value -> B) (slots : list Slot)
  : list (option B) :=
  map (option_map f) slots.

(** ** [Set] and [Map] keyed by strings *)

(** A [Set] of strings: [has] and [add]. *)
Definition set_has (types : list string) (type : string) : bool :=
  existsb (String.eqb type) types.

Definition set_add (types : list string) (type : string) : list string :=
  if set_has types type then types else types ++ [type].

(** A [Map] from strings to counts, in insertion order as [entries()]
    yields it.  Counts are [nat]: an array has fewer than [2^32] elements,
    so [value + 1] on doubles is exact. *)
Definition Entries : Type := list (string * nat).

Definition map_has (result : Entries) (type : string) : bool :=
  existsb (fun e => String.eqb type (fst e)) result.

Fixpoint map_get (result : Entries) (type : string) : nat :=
  match result with
  | [] => 0
  | (k, v) :: rest => if String.eqb type k then v else map_get rest type
  end.

(** [result.set(type, v)]: an existing key keeps its position, a new key is
    appended. *)
Fixpoint map_set (result : Entries) (type : string) (v : nat) : Entries :=
  match result with
  | [] => [(type, v)]
  | (k, w) :: rest =>
      if String.eqb type k then (k, v) :: rest
      else (k, w) :: map_set rest type v
  end.

(** ** [Array.prototype.sort] *)

(** [sort] with a comparator returning a negative, zero or positive number
    (ECMAScript requires a stable sort).  Stable insertion sort: on a
    consistent comparator every stable sort returns the same array. *)
Section Sort.
Context {A : Type} (cmp : A -> A -> Z).

Fixpoint insert (x : A) (l : list A) : list A :=
  match l with
  | [] => [x]
  | y :: l' => if (cmp x y <=? 0)%Z then x :: l else y :: insert x l'
  end.

Definition sort (l : list A) : list A := fold_right insert [] l.
End Sort.

(** The comparator of [sort()] without argument: elements are converted to
    strings and compared by code units.  [Z_of_comparison] gives the sign. *)
Definition Z_of_comparison (c : comparison) : Z :=
  match c with
  | Lt => (-1)%Z
  | Eq => 0%Z
  | Gt => 1%Z
  end.

(** [String([type, count])] is [type + "," + count]. *)
Definition entry_toString (e : string * nat) : string :=
  (fst e ++ "," ++ NilZero.string_of_uint (Nat.to_uint (snd e)))%string.

Definition default_compare (a b : string * nat) : Z :=
  Z_of_comparison (String.compare (entry_toString a) (entry_toString b)).

(** ** Functions shared by the three variants *)

(** [getType], the same in all three files. *)
Definition getType (value : Value) : string := typeof value.

(** The [for] loop of [allItemsHaveTheSameType], written alike in the three
    files: [i] is the loop counter and [n] the number of iterations left,
    [arr.length - i]. *)
Fixpoint same_type_loop (arr : Value) (type : string) (i n : nat) : bool :=
  match n with
  | 0 => true
  | S n' =>
      let typeTocompare := typeof (index arr i) in
      if negb (typeTocompare =? type)%string then false
      else same_type_loop arr type (S i) n'
  end.

Section Loops.
(** The [for ... of] loops of [everyItemHasAUniqueRealType] and
    [countRealTypes] call the [getRealType] of their own file. *)
Variable getRealType : Value -> string.

(** [types] is the [Set] built so far; [false] is the early return. *)
Fixpoint unique_loop (rest : list Value) (types : list string) : bool :=
  match rest with
  | [] => true
  | item :: rest' =>
      let type := getRealType item in
      if set_has types type then false
      else unique_loop rest' (set_add types type)
  end.

(** [result] is the [Map] built so far. *)
Fixpoint count_loop (rest : list Value) (result : Entries) : Entries :=
  match rest with
  | [] => result
  | item :: rest' =>
      let type := getRealType item in
      if map_has result type then
        let value := map_get result type in
        count_loop rest' (map_set result type (value + 1))
      else
        count_loop rest' (map_set result type 1)
  end.
End Loops.

(** The comparator passed to [sort] by the strict variants. *)
Definition string_gtb (x y : string) : bool :=
  match String.compare x y with
  | Gt => true
  | _ => false
  end.

Definition compare_by_type (a b : string * nat) : Z :=
  if string_gtb (fst a) (fst b) then 1%Z
  else if String.ltb (fst a) (fst b) then (-1)%Z
  else 0%Z.

(** ** The strict JavaScript variant ([src/unnamed/part_001]) *)
Module Strict.

Fixpoint areEqual (a b : Value) {struct a} : bool :=
  if strict_eq a b then true
  else
    match a, b with
    | VArray _ _ sa, VArray _ _ sb =>
        if Nat.eqb (List.length sa) (List.length sb) then
          (* a.every((value, i) => areEqual(value, b[i])):
             the callback is not called on a hole of [a] *)
          (fix every (rest : list Slot) (i : nat) {struct rest} : bool :=
             match rest with
             | [] => true
             | None :: rest' => every rest' (S i)
             | Some value :: rest' =>
                 if areEqual value (index b i) then every rest' (S i)
                 else false
             end) sa 0
        else false
    | _, _ => false
    end.

Definition getTypesOfItems (arr : Value) : Result (list (option string)) :=
  if negb (isArray arr) then TypeError not_an_array
  else Ok (array_map (fun item => getType item) (slots_of arr)).

Definition allItemsHaveTheSameType (arr : Value) : Result bool :=
  if negb (isArray arr) then TypeError not_an_array
  else if (length_of arr <=? 1)%nat then Ok true
  else
    let type := typeof (index arr 0) in
    Ok (same_type_loop arr type 1 (length_of arr - 1)).

Definition getRealType (value : Value) : string :=
  let type := typeof value in
  match
    (if (type =? "number")%string then
       if isNaN value then Some "NaN"
       else if negb (isFinite value) then Some "Infinity"
       else None
     else None)
  with
  | Some label => label
  | None =>
      if strict_eq value VNull then "null"
      else if isArray value then "array"
      else if instanceof value CDate then "date"
      else if instanceof value CRegExp then "regexp"
      else if instanceof value CSet then "set"
      else if instanceof value CMap then "map"
      else if instanceof value CError then "error"
      else if instanceof value CArrayBuffer then "arrayBuffer"
      else if instanceof value CDataView then "dataView"
      else if instanceof value CPromise then "promise"
      else type
  end.

Definition getRealTypesOfItems (arr : Value)
  : Result (list (option string)) :=
  if negb (isArray arr) then TypeError not_an_array
  else Ok (array_map (fun item => getRealType item) (slots_of arr)).

Definition everyItemHasAUniqueRealType (arr : Value) : Result bool :=
  if negb (isArray arr) then TypeError not_an_array
  else Ok (unique_loop getRealType (items arr) []).

Definition countRealTypes (arr : Value) : Result Entries :=
  if negb (isArray arr) then TypeError not_an_array
  else
    let result := count_loop getRealType (items arr) [] in
    Ok (sort compare_by_type result).

End Strict.

(** ** The TypeScript variant ([src/unnamed/part_000]) *)

(** Type annotations are erased at run time; what is left differs from the
    strict JavaScript file in [getRealType], which tests
    [typeof value === 'number'] directly and returns [typeof value]. *)
Module TS.

Fixpoint areEqual (a b : Value) {struct a} : bool :=
  if strict_eq a b then true
  else
    match a, b with
    | VArray _ _ sa, VArray _ _ sb =>
        if Nat.eqb (List.length sa) (List.length sb) then
          (fix every (rest : list Slot) (i : nat) {struct rest} : bool :=
             match rest with
             | [] => true
             | None :: rest' => every rest' (S i)
             | Some value :: rest' =>
                 if areEqual value (index b i) then every rest' (S i)
                 else false
             end) sa 0
        else false
    | _, _ => false
    end.

Definition getTypesOfItems (arr : Value) : Result (list (option string)) :=
  if negb (isArray arr) then TypeError not_an_array
  else Ok (array_map (fun item => getType item) (slots_of arr)).

Definition allItemsHaveTheSameType (arr : Value) : Result bool :=
  if negb (isArray arr) then TypeError not_an_array
  else if (length_of arr <=? 1)%nat then Ok true
  else
    let type := typeof (index arr 0) in
    Ok (same_type_loop arr type 1 (length_of arr - 1)).

Definition getRealType (value : Value) : string :=
  match
    (if (typeof value =? "number")%string then
       if isNaN value then Some "NaN"
       else if negb (isFinite value) then Some "Infinity"
       else None
     else None)
  with
  | Some label => label
  | None =>
      if strict_eq value VNull then "null"
      else if isArray value then "array"
      else if instanceof value CDate then "date"
      else if instanceof value CRegExp then "regexp"
      else if instanceof value CSet then "set"
      else if instanceof value CMap then "map"
      else if instanceof value CError then "error"
      else if instanceof value CArrayBuffer then "arrayBuffer"
      else if instanceof value CDataView then "dataView"
      else if instanceof value CPromise then "promise"
      else typeof value
  end.

Definition getRealTypesOfItems (arr : Value)
  : Result (list (option string)) :=
  if negb (isArray arr) then TypeError not_an_array
  else Ok (array_map (fun item => getRealType item) (slots_of arr)).

Definition everyItemHasAUniqueRealType (arr : Value) : Result bool :=
  if negb (isArray arr) then TypeError not_an_array
  else Ok (unique_loop getRealType (items arr) []).

Definition countRealTypes (arr : Value) : Result Entries :=
  if negb (isArray arr) then TypeError not_an_array
  else
    let result := count_loop getRealType (items arr) [] in
    Ok (sort compare_by_type result).

End TS.

(** ** The permissive JavaScript variant ([src/index.js]) *)
Module Permissive.

(** [compareArrays(a, b)]: an indexed loop, so a hole is read as
    [undefined] on either side.  Both call sites pass arrays only; the
    answer on a non-array [a] is never consulted. *)
Fixpoint compareArrays (a b : Value) {struct a} : bool :=
  match a with
  | VArray _ _ sa =>
      if negb (Nat.eqb (List.length sa) (length_of b)) then false
      else
        (fix loop (rest : list Slot) (i : nat) {struct rest} : bool :=
           match rest with
           | [] => true
           | None :: rest' =>
               (* a[i] is undefined, which is no array *)
               if negb (strict_eq VUndefined (index b i)) then false
               else loop rest' (S i)
           | Some ai :: rest' =>
               if isArray ai && isArray (index b i) then
                 if negb (compareArrays ai (index b i)) then false
                 else loop rest' (S i)
               else if negb (strict_eq ai (index b i)) then false
               else loop rest' (S i)
           end) sa 0
  | _ => false
  end.

Definition areEqual (a b : Value) : bool :=
  if isArray a && isArray b then compareArrays a b
  else strict_eq a b.

Definition getTypesOfItems (arr : Value) : Result (list (option string)) :=
  if negb (isArray arr) then Ok []
  else Ok (array_map (fun item => typeof item) (slots_of arr)).

Definition allItemsHaveTheSameType (arr : Value) : Result bool :=
  if negb (isArray arr) then Ok false
  else if (length_of arr =? 0)%nat then Ok true
  else
    let type := typeof (index arr 0) in
    Ok (same_type_loop arr type 1 (length_of arr - 1)).

Definition getRealType (value : Value) : string :=
  let type := getType value in
  match
    (if (type =? "number")%string then
       if isNaN value then Some "NaN"
       else if negb (isFinite value) then Some "Infinity"
       else None
     else None)
  with
  | Some label => label
  | None =>
      if (type =? "object")%string then
        if strict_eq value VNull then "null"
        else if isArray value then "array"
        else if instanceof value CDate then "date"
        else if instanceof value CRegExp then "regexp"
        else if instanceof value CSet then "set"
        else type
      else type
  end.

Definition getRealTypesOfItems (arr : Value)
  : Result (list (option string)) :=
  if negb (isArray arr) then Ok []
  else Ok (array_map (fun item => getRealType item) (slots_of arr)).

Definition everyItemHasAUniqueRealType (arr : Value) : Result bool :=
  if negb (isArray arr) then Ok false
  else Ok (unique_loop getRealType (items arr) []).

Definition countRealTypes (arr : Value) : Result Entries :=
  if negb (isArray arr) then Ok []
  else
    let result := count_loop getRealType (items arr) [] in
    Ok (sort default_compare result).

End Permissive.

(** ** The test harness *)

(** The harness is written alike in the three files; it differs by the
    [areEqual] it calls.  Its only effect is a sequence of calls to
    [console], which is what [Console] records, oldest call first. *)
Inductive ConsoleCall : Type :=
  | console_log (text : string)
  | console_error (text : string)
  | console_debug (text : string)
  | console_debug_value (v : Value)
  | console_group (label : string)
  | console_groupEnd.

Definition Console : Type := list ConsoleCall.

Definition newline : string := String (ascii_of_nat 10) EmptyString.

(** [testBlock(name)] *)
Definition testBlock (name : string) (console : Console) : Console :=
  console ++ [console_groupEnd; console_group ("# " ++ name ++ newline)%string].

Section Harness.
Variable areEqual : Value -> Value -> bool.

(** [test(whatWeTest, actualResult, expectedResult)] *)
Definition test (whatWeTest : string) (actualResult expectedResult : Value)
    (console : Console) : Console :=
  if areEqual actualResult expectedResult then
    console ++ [console_log ("[OK] " ++ whatWeTest ++ newline)%string]
  else
    console ++
      [console_error ("[FAIL] " ++ whatWeTest)%string;
       console_debug "Expected:";
       console_debug_value expectedResult;
       console_debug "Actual:";
       console_debug_value actualResult;
       console_log ""].
End Harness.

(** ** Values with revoked Proxy objects *)

(** [Value] holds no Proxy object.  A revoked Proxy (the [proxy] of
    [Proxy.revocable(target, handler)] after [revoke()]) is the simplest
    one: every operation that reaches for its target or handler throws a
    [TypeError], while [typeof] still answers from the target it was
    made of.  [JSValue] adds it to the values, and the classifiers of a
    single value are transcribed once more over [JSValue], with the
    primitive operations that can throw returning a [Result]. *)
Inductive JSValue : Type :=
  | Plain (v : Value)
  | RevokedProxy (callable : bool).

(** The message of the [TypeError] is the engine's. *)
Definition revoked_message : string :=
  "Cannot perform operation on a proxy that has been revoked".

Definition bind {A B : Type} (r : Result A) (k : A -> Result B) : Result B :=
  match r with
  | Ok a => k a
  | TypeError message => TypeError message
  end.

Notation "x <- r ;; k" := (bind r (fun x => k))
  (at level 61, r at next level, right associativity).

Module JS.

(** [typeof value]: a Proxy is a ["function"] if its target was callable
    and an ["object"] otherwise, revoked or not. *)
Definition typeof (value : JSValue) : string :=
  match value with
  | Plain v => typeof v
  | RevokedProxy true => "function"
  | RevokedProxy false => "object"
  end.

(** [value === null] *)
Definition is_null (value : JSValue) : bool :=
  match value with
  | Plain v => strict_eq v VNull
  | RevokedProxy _ => false
  end.

(** [Array.isArray(value)] throws on a revoked Proxy. *)
Definition isArray (value : JSValue) : Result bool :=
  match value with
  | Plain v => Ok (isArray v)
  | RevokedProxy _ => TypeError revoked_message
  end.

(** [value instanceof C] asks the value for its prototype, which throws
    on a revoked Proxy. *)
Definition instanceof (value : JSValue) (c : Class) : Result bool :=
  match value with
  | Plain v => Ok (instanceof v c)
  | RevokedProxy _ => TypeError revoked_message
  end.

(** [isNaN(value)] and [isFinite(value)] convert the value to a number,
    which throws on a revoked Proxy. *)
Definition isNaN (value : JSValue) : Result bool :=
  match value with
  | Plain v => Ok (isNaN v)
  | RevokedProxy _ => TypeError revoked_message
  end.

Definition isFinite (value : JSValue) : Result bool :=
  match value with
  | Plain v => Ok (isFinite v)
  | RevokedProxy _ => TypeError revoked_message
  end.

(** [getType], the same in the three files. *)
Definition getType (value : JSValue) : string := typeof value.

(** The numeric block, the same in the three files: [Some label] when it
    returns, [None] when it falls through. *)
Definition numeric_block (type : string) (value : JSValue)
  : Result (option string) :=
  if (type =? "number")%string then
    nan <- isNaN value ;;
    if nan then Ok (Some "NaN")
    else
      finite <- isFinite value ;;
      if negb finite then Ok (Some "Infinity") else Ok None
  else Ok None.

End JS.

(** [getRealType] of [src/unnamed/part_001] *)
Module StrictJS.

Definition getRealType (value : JSValue) : Result string :=
  let type := JS.typeof value in
  returned <- JS.numeric_block type value ;;
  match returned with
  | Some label => Ok label
  | None =>
      if JS.is_null value then Ok "null"
      else
        array <- JS.isArray value ;;
        if array then Ok "array" else
        date <- JS.instanceof value CDate ;;
        if date then Ok "date" else
        regexp <- JS.instanceof value CRegExp ;;
        if regexp then Ok "regexp" else
        set <- JS.instanceof value CSet ;;
        if set then Ok "set" else
        map <- JS.instanceof value CMap ;;
        if map then Ok "map" else
        error <- JS.instanceof value CError ;;
        if error then Ok "error" else
        arrayBuffer <- JS.instanceof value CArrayBuffer ;;
        if arrayBuffer then Ok "arrayBuffer" else
        dataView <- JS.instanceof value CDataView ;;
        if dataView then Ok "dataView" else
        promise <- JS.instanceof value CPromise ;;
        if promise then Ok "promise" else
        Ok type
  end.

End StrictJS.

(** [getRealType] of [src/unnamed/part_000] *)
Module TSJS.

Definition getRealType (value : JSValue) : Result string :=
  returned <- JS.numeric_block (JS.typeof value) value ;;
  match returned with
  | Some label => Ok label
  | None =>
      if JS.is_null value then Ok "null"
      else
        array <- JS.isArray value ;;
        if array then Ok "array" else
        date <- JS.instanceof value CDate ;;
        if date then Ok "date" else
        regexp <- JS.instanceof value CRegExp ;;
        if regexp then Ok "regexp" else
        set <- JS.instanceof value CSet ;;
        if set then Ok "set" else
        map <- JS.instanceof value CMap ;;
        if map then Ok "map" else
        error <- JS.instanceof value CError ;;
        if error then Ok "error" else
        arrayBuffer <- JS.instanceof value CArrayBuffer ;;
        if arrayBuffer then Ok "arrayBuffer" else
        dataView <- JS.instanceof value CDataView ;;
        if dataView then Ok "dataView" else
        promise <- JS.instanceof value CPromise ;;
        if promise then Ok "promise" else
        Ok (JS.typeof value)
  end.

End TSJS.

(** [getRealType] of [src/index.js]: the reference checks run under
    [type === 'object'] only. *)
Module PermissiveJS.

Definition getRealType (value : JSValue) : Result string :=
  let type := JS.getType value in
  returned <- JS.numeric_block type value ;;
  match returned with
  | Some label => Ok label
  | None =>
      if (type =? "object")%string then
        if JS.is_null value then Ok "null"
        else
          array <- JS.isArray value ;;
          if array then Ok "array" else
          date <- JS.instanceof value CDate ;;
          if date then Ok "date" else
          regexp <- JS.instanceof value CRegExp ;;
          if regexp then Ok "regexp" else
          set <- JS.instanceof value CSet ;;
          if set then Ok "set" else
          Ok type
      else Ok type
  end.

End PermissiveJS.

(** * Specifications *)

(** The vocabulary of the statements proved below: the values used as
    examples, the label lists, the predicates the classifiers are checked
    against and the chain of the specification. *)

(** ** Example values *)

(** [knownTypes] of the strict files: nineteen values of nineteen refined
    types. *)
Definition knownTypes : Value :=
  VArray 100 []
    [Some (VBoolean true); Some (VNumber (S754_finite false 123 0));
     Some (VString "whoo"); Some (VArray 101 [] []);
     Some (VObject 102 false []); Some (VObject 103 true []);
     Some VUndefined; Some VNull; Some (VNumber S754_nan);
     Some (VNumber (S754_infinity false)); Some (VObject 104 false [CDate]);
     Some (VObject 105 false [CRegExp]); Some (VObject 106 false [CSet]);
     Some (VObject 107 false [CMap]); Some (VSymbol 0);
     Some (VObject 108 false [CError]);
     Some (VObject 109 false [CArrayBuffer]);
     Some (VObject 110 false [CDataView]);
     Some (VObject 111 false [CPromise])].

(** [[true, null, !null, !!null, {}]] *)
Definition five_items : Value :=
  VArray 20 []
    [Some (VBoolean true); Some VNull; Some (VBoolean true);
     Some (VBoolean false); Some (VObject 21 false [])].

(** [[true, 123, '123']] *)
Definition three_unique : Value :=
  VArray 30 []
    [Some (VBoolean true); Some (VNumber (S754_finite false 123 0));
     Some (VString "123")].

(** [['11', new String('12'), '13']] *)
Definition wrapped_string : Value :=
  VArray 40 []
    [Some (VString "11"); Some (VObject 41 false []); Some (VString "13")].

(** [NaN], [Infinity] and [new Map()] *)
Definition not_a_number : Value := VNumber S754_nan.
Definition infinity : Value := VNumber (S754_infinity false).
Definition new_Map : Value := VObject 14 false [CMap].

(** An array whose prototype is [Date.prototype], and a function whose
    prototype is [Date.prototype]. *)
Definition array_with_Date_prototype : Value := VArray 120 [CDate] [].
Definition function_with_Date_prototype : Value := VObject 121 true [CDate].

(** [[ , ]], an array of length 1 whose only slot is empty, and [[5]]. *)
Definition one_hole : Value := VArray 50 [] [None].
Definition one_five : Value :=
  VArray 51 [] [Some (VNumber (S754_finite false 5 0))].

(** ** Labels *)

(** The coarse vocabulary: what [typeof] can return. *)
Definition coarse_labels : list string :=
  ["undefined"; "object"; "boolean"; "number"; "bigint"; "string";
   "symbol"; "function"].

(** The refinements [getRealType] adds to it. *)
Definition refinements : list string :=
  ["null"; "array"; "NaN"; "Infinity"; "date"; "regexp"; "set"; "map";
   "error"; "arrayBuffer"; "dataView"; "promise"].

(** The labels the permissive [getRealType] can return. *)
Definition permissive_labels : list string :=
  coarse_labels ++ ["NaN"; "Infinity"; "null"; "array"; "date"; "regexp"; "set"].

(** Two strings that differ at a position both have: appending to them
    does not change how they compare. *)
Fixpoint differ_inside (s1 s2 : string) : bool :=
  match s1, s2 with
  | String c1 r1, String c2 r2 =>
      if Ascii.eqb c1 c2 then differ_inside r1 r2 else true
  | _, _ => false
  end.

(** The default comparator orders entries by their string form
    [type,count].  That is the order of the labels when no label is a
    prefix of another, which [prefix_free] checks on a list of labels. *)
Definition prefix_free (labels : list string) : bool :=
  forallb (fun l1 =>
    forallb (fun l2 => String.eqb l1 l2 || differ_inside l1 l2) labels)
    labels.

(** ** Frequency count *)

Definition keys (result : Entries) : list string := map fst result.
Definition sum_counts (result : Entries) : nat := list_sum (map snd result).

(** One iteration of the loop of [countRealTypes]: both branches of the
    [if] store the old count plus one. *)
Definition bump (result : Entries) (type : string) : Entries :=
  map_set result type (map_get result type + 1).

(** Ascending by label; strictly, since a label occurs once. *)
Definition sorted_by_label (res : Entries) : Prop :=
  StronglySorted (fun a b => (fst a <? fst b)%string = true) res.

(** [res] is the frequency count of the list [labels]: one pair per
    distinct label, each with its number of occurrences, ascending by
    label, the counts adding up to the length of the list. *)
Record frequency_count (labels : list string) (res : Entries) : Prop := {
  fc_distinct : NoDup (keys res);
  fc_labels : forall l, In l (keys res) <-> In l labels;
  fc_count : forall l c, In (l, c) res -> c = count_occ string_dec labels l;
  fc_sorted : sorted_by_label res;
  fc_sum : sum_counts res = List.length labels
}.

(** [countRealTypes arr] returns the frequency count of the refined labels
    of the elements of [arr]. *)
Definition counts_real_types (getRealType : Value -> string)
    (countRealTypes : Value -> Result Entries) (arr : Value) : Prop :=
  exists res,
    countRealTypes arr = Ok res /\
    frequency_count (map getRealType (items arr)) res /\
    sum_counts res = length_of arr.

(** ** Uniqueness and uniformity *)

(** [everyItemHasAUniqueRealType arr] returns [true] exactly when the
    refined labels of the elements of [arr] have no duplicate. *)
Definition checks_uniqueness (getRealType : Value -> string)
    (everyItemHasAUniqueRealType : Value -> Result bool) (arr : Value)
  : Prop :=
  exists b,
    everyItemHasAUniqueRealType arr = Ok b /\
    (b = true <-> NoDup (map getRealType (items arr))) /\
    (length_of arr = 0 -> b = true).

(** The uniqueness check answers [true] exactly when every count of the
    frequency count is 1. *)
Definition unique_iff_ones (everyItemHasAUniqueRealType : Value -> Result bool)
    (countRealTypes : Value -> Result Entries) (arr : Value) : Prop :=
  exists b res,
    everyItemHasAUniqueRealType arr = Ok b /\
    countRealTypes arr = Ok res /\
    (b = true <-> Forall (fun e => snd e = 1) res).

(** The sequence has at most one element, or every element has the
    coarse label of the first one. *)
Definition uniform (arr : Value) : Prop :=
  length_of arr <= 1 \/
  Forall (fun item => getType item = getType (index arr 0)) (items arr).

(** [allItemsHaveTheSameType arr] returns [true] on a uniform array and
    [false] on any other. *)
Definition checks_uniformity
    (allItemsHaveTheSameType : Value -> Result bool) (arr : Value) : Prop :=
  exists b, allItemsHaveTheSameType arr = Ok b /\ (b = true <-> uniform arr).

(** ** Numbers *)

(** What the numeric step answers on a number. *)
Definition numeric_label (value : Value) : string :=
  if isNaN value then "NaN"
  else if negb (isFinite value) then "Infinity"
  else "number".

(** No reference-shape check of the chain holds of [value]. *)
Definition no_reference_shape (value : Value) : Prop :=
  strict_eq value VNull = false /\
  isArray value = false /\
  forall c, instanceof value c = false.

(** ** Non-array input *)

(** Every sequence classifier of a strict variant throws the [TypeError]. *)
Definition strict_policy
    (getTypesOfItems getRealTypesOfItems : Value -> Result (list (option string)))
    (allItemsHaveTheSameType everyItemHasAUniqueRealType : Value -> Result bool)
    (countRealTypes : Value -> Result Entries) (arr : Value) : Prop :=
  getTypesOfItems arr = TypeError not_an_array /\
  allItemsHaveTheSameType arr = TypeError not_an_array /\
  getRealTypesOfItems arr = TypeError not_an_array /\
  everyItemHasAUniqueRealType arr = TypeError not_an_array /\
  countRealTypes arr = TypeError not_an_array.

(** Every sequence classifier of the permissive variant returns the empty
    array (listings and count) or [false] (checks). *)
Definition permissive_policy (arr : Value) : Prop :=
  Permissive.getTypesOfItems arr = Ok [] /\
  Permissive.allItemsHaveTheSameType arr = Ok false /\
  Permissive.getRealTypesOfItems arr = Ok [] /\
  Permissive.everyItemHasAUniqueRealType arr = Ok false /\
  Permissive.countRealTypes arr = Ok [].

(** ** The precedence chain *)

(** The chain as the specification words it (section 4.2): an ordered list
    of steps, each a shape test and the label it yields; the first step
    whose test holds wins, and a value matching none keeps its coarse
    label. *)
Definition Step : Type := ((Value -> bool) * string)%type.

(** Step 1: the coarse label is ["number"] and the value is NaN, or is not
    finite. *)
Definition numeric_steps : list Step :=
  [ (fun v => (getType v =? "number")%string && isNaN v, "NaN");
    (fun v => (getType v =? "number")%string && negb (isFinite v), "Infinity") ].

(** Steps 2 to 11. *)
Definition reference_steps : list Step :=
  [ (fun v => strict_eq v VNull, "null");
    (isArray, "array");
    (fun v => instanceof v CDate, "date");
    (fun v => instanceof v CRegExp, "regexp");
    (fun v => instanceof v CSet, "set");
    (fun v => instanceof v CMap, "map");
    (fun v => instanceof v CError, "error");
    (fun v => instanceof v CArrayBuffer, "arrayBuffer");
    (fun v => instanceof v CDataView, "dataView");
    (fun v => instanceof v CPromise, "promise") ].

Definition first_match (steps : list Step) (v : Value) : option string :=
  option_map snd (find (fun step => fst step v) steps).

(** Step 12 closes the chain. *)
Definition refinedClassifier (v : Value) : string :=
  match first_match (numeric_steps ++ reference_steps) v with
  | Some label => label
  | None => getType v
  end.

(** The chain of the permissive variant: the numeric steps, then the
    first five reference steps (null, array, date, regexp, set) for a value
    whose coarse label is ["object"], and the coarse label otherwise. *)
Definition refinedClassifier_permissive (v : Value) : string :=
  match first_match numeric_steps v with
  | Some label => label
  | None =>
      if (getType v =? "object")%string then
        match first_match (firstn 5 reference_steps) v with
        | Some label => label
        | None => getType v
        end
      else getType v
  end.

(** ** Comparing arrays *)

(** Comparing two lists of slots position by position, a hole read as
    [undefined]. *)
Fixpoint all2 (f : Value -> Value -> bool) (sa sb : list Slot) : bool :=
  match sa, sb with
  | s :: ra, t :: rb => f (read s) (read t) && all2 f ra rb
  | _, _ => true
  end.

(** The loop of [compareArrays], on its own: [i] is the index reached. *)
Fixpoint all_from (f : Value -> Value -> bool) (rest : list Slot) (b : Value)
    (i : nat) : bool :=
  match rest with
  | [] => true
  | s :: rest' => f (read s) (index b i) && all_from f rest' b (S i)
  end.

(** The loop of [every], which skips the holes of [rest]. *)
Fixpoint every_from (f : Value -> Value -> bool) (rest : list Slot)
    (b : Value) (i : nat) : bool :=
  match rest with
  | [] => true
  | None :: rest' => every_from f rest' b (S i)
  | Some v :: rest' => f v (index b i) && every_from f rest' b (S i)
  end.

(** No slot of the list is empty. *)
Definition no_hole (slots : list Slot) : bool :=
  forallb (fun s => match s with Some _ => true | None => false end) slots.

(** An array without hole at any depth. *)
Fixpoint dense (v : Value) : bool :=
  match v with
  | VArray _ _ slots =>
      forallb (fun s => match s with
                        | Some v' => dense v'
                        | None => false
                        end) slots
  | _ => true
  end.

(** ** Further vocabulary *)

(** Every label a strict [getRealType] can return, and the five that the
    permissive one lacks. *)
Definition all_labels : list string := coarse_labels ++ refinements.

Definition late_labels : list string :=
  ["map"; "error"; "arrayBuffer"; "dataView"; "promise"].

(** [knownTypes] and a BigInt: twenty values of twenty refined types. *)
Definition twenty_types : Value :=
  VArray 200 [] (Some (VBigInt 1) :: slots_of knownTypes).

(** [knownTypes] of [src/index.js]: thirteen values. *)
Definition knownTypes_permissive : Value :=
  VArray 210 [] (firstn 13 (slots_of knownTypes)).

(** [[{}, null, true, !null, !!null]], the items of [five_items] in
    another order. *)
Definition five_items_reordered : Value :=
  VArray 22 []
    [Some (VObject 21 false []); Some VNull; Some (VBoolean true);
     Some (VBoolean true); Some (VBoolean false)].

(** The labels a listing holds, and the number of empty slots. *)
Fixpoint assigned {A : Type} (l : list (option A)) : list A :=
  match l with
  | [] => []
  | Some x :: l' => x :: assigned l'
  | None :: l' => assigned l'
  end.

Fixpoint holes {A : Type} (l : list (option A)) : nat :=
  match l with
  | [] => 0
  | Some _ :: l' => holes l'
  | None :: l' => S (holes l')
  end.

(** A NaN, at any depth of an array. *)
Fixpoint has_NaN (v : Value) : bool :=
  match v with
  | VNumber x => number_isNaN x
  | VArray _ _ slots =>
      existsb (fun s => match s with
                        | Some v' => has_NaN v'
                        | None => false
                        end) slots
  | _ => false
  end.

(** A run of the harness: the calls a file makes at its top level, in
    order, from the console [console]. *)
Inductive Call : Type :=
  | call_testBlock (name : string)
  | call_test (whatWeTest : string) (actualResult expectedResult : Value).

Definition run_call (areEqual : Value -> Value -> bool) (console : Console)
    (c : Call) : Console :=
  match c with
  | call_testBlock name => testBlock name console
  | call_test whatWeTest actualResult expectedResult =>
      test areEqual whatWeTest actualResult expectedResult console
  end.

Definition run (areEqual : Value -> Value -> bool) (script : list Call)
    (console : Console) : Console :=
  fold_left (run_call areEqual) script console.

(** The nesting of console groups after the calls of [console], from the
    nesting [depth]: [groupEnd] does nothing when no group is open. *)
Fixpoint group_depth (console : Console) (depth : nat) : nat :=
  match console with
  | [] => depth
  | console_group _ :: rest => group_depth rest (S depth)
  | console_groupEnd :: rest => group_depth rest (Nat.pred depth)
  | _ :: rest => group_depth rest depth
  end.

Definition is_testBlock (c : Call) : bool :=
  match c with
  | call_testBlock _ => true
  | call_test _ _ _ => false
  end.

Definition is_error (c : ConsoleCall) : bool :=
  match c with
  | console_error _ => true
  | _ => false
  end.

(** The tests of a script that fail. *)
Definition fails (areEqual : Value -> Value -> bool) (c : Call) : bool :=
  match c with
  | call_testBlock _ => false
  | call_test _ actualResult expectedResult =>
      negb (areEqual actualResult expectedResult)
  end.

(** [knownTypes] of [src/index.js], a BigInt and a symbol: fifteen values
    of fifteen refined types of the permissive variant. *)
Definition fifteen_types : Value :=
  VArray 220 []
    (Some (VBigInt 1) :: Some (VSymbol 0) :: slots_of knownTypes_permissive).

(** What [countRealTypes] returns on an array that has at most
    [max_labels] refined labels: no count is zero or exceeds the length,
    there are not more pairs than elements or labels, and no pair at all
    exactly on the empty array. *)
Definition count_bounds (countRealTypes : Value -> Result Entries)
    (max_labels : nat) (arr : Value) : Prop :=
  exists res,
    countRealTypes arr = Ok res /\
    Forall (fun e => 1 <= snd e <= length_of arr) res /\
    List.length res <= length_of arr /\
    List.length res <= max_labels /\
    (res = [] <-> length_of arr = 0).

(** The count of [label] is the number of times the listing holds it,
    plus, for ["undefined"], the number of empty slots of the listing. *)
Definition count_of_listing
    (getRealTypesOfItems : Value -> Result (list (option string)))
    (countRealTypes : Value -> Result Entries) (arr : Value) : Prop :=
  exists listing res,
    getRealTypesOfItems arr = Ok listing /\
    countRealTypes arr = Ok res /\
    List.length listing = length_of arr /\
    forall label,
      map_get res label =
      count_occ string_dec (assigned listing) label +
      (if String.eqb label "undefined" then holes listing else 0).

(** The coarse label behind a label of the permissive variant. *)
Definition coarse_of_permissive (label : string) : string :=
  if existsb (String.eqb label) ["NaN"; "Infinity"] then "number"
  else if existsb (String.eqb label) ["null"; "array"; "date"; "regexp"; "set"]
  then "object"
  else label.

(** A date: [new Date()]. *)
Definition new_Date : Value := VObject 104 false [CDate].

(** The shapes behind the labels that name one: the label is returned on
    that shape and on no other. *)
Definition label_sound (getRealType : Value -> string) (v : Value) : Prop :=
  (getRealType v = "NaN" <-> v = VNumber S754_nan) /\
  (getRealType v = "Infinity" <-> exists s, v = VNumber (S754_infinity s)) /\
  (getRealType v = "number" <->
     exists x, v = VNumber x /\ number_isFinite x = true) /\
  (getRealType v = "null" <-> v = VNull) /\
  (getRealType v = "array" <-> isArray v = true).

(** [[ , undefined]] *)
Definition hole_and_undefined : Value := VArray 60 [] [None; Some VUndefined].

(** An array of values that are no arrays, without empty slot. *)
Definition flat_slots (slots : list Slot) : bool :=
  forallb (fun s => match s with
                    | Some v => negb (isArray v)
                    | None => false
                    end) slots.

(** [[1, 'a']] twice, as two arrays, and [[[1]]] twice. *)
Definition one_a : Value :=
  VArray 70 [] [Some (VNumber (S754_finite false 1 0)); Some (VString "a")].
Definition one_a_again : Value :=
  VArray 71 [] [Some (VNumber (S754_finite false 1 0)); Some (VString "a")].
Definition nested : Value :=
  VArray 72 [] [Some (VArray 73 [] [Some (VNumber (S754_finite false 1 0))])].
Definition nested_again : Value :=
  VArray 74 [] [Some (VArray 75 [] [Some (VNumber (S754_finite false 1 0))])].

Definition is_log (c : ConsoleCall) : bool :=
  match c with
  | console_log _ => true
  | _ => false
  end.

(** What a run of the harness leaves on the console: the output so far is
    kept, every test logs one line, a failed test reports one error, and
    the groups never nest. *)
Definition harness_output (areEqual : Value -> Value -> bool)
    (script : list Call) : Prop :=
  let console := run areEqual script [] in
  List.length (filter is_log console) =
    List.length (filter (fun c => negb (is_testBlock c)) script) /\
  List.length (filter is_error console) =
    List.length (filter (fails areEqual) script) /\
  group_depth console 0 = (if existsb is_testBlock script then 1 else 0).

(** The uniformity answer read off the coarse listing: [true] exactly when
    the listing holds no two different labels. *)
Definition uniform_listing
    (allItemsHaveTheSameType : Value -> Result bool)
    (getTypesOfItems : Value -> Result (list (option string)))
    (arr : Value) : Prop :=
  exists b listing,
    allItemsHaveTheSameType arr = Ok b /\
    getTypesOfItems arr = Ok listing /\
    (b = true <->
     forall x y, In x (assigned listing) -> In y (assigned listing) -> x = y).

(** [[ , 'a']] *)
Definition hole_and_string : Value := VArray 80 [] [None; Some (VString "a")].

(** A permissive listing or count is empty exactly on the empty array and
    on the values that are no arrays. *)
Definition empty_iff_nothing_to_list {A : Type} (f : Value -> Result (list A))
    (v : Value) : Prop :=
  f v = Ok [] <-> isArray v = false \/ length_of v = 0.

(** ** Single values, Proxy objects included *)

(** A revoked Proxy of a plain object, and one of a function. *)
Definition revoked_Proxy : JSValue := RevokedProxy false.
Definition revoked_function_Proxy : JSValue := RevokedProxy true.

(** The call returns one label, which is the coarse label of the value or
    one of the refinements. *)
Definition returns_label (getRealType : JSValue -> Result string)
    (value : JSValue) : Prop :=
  exists label,
    getRealType value = Ok label /\
    (label = JS.getType value \/ In label refinements).

(** * Properties *)

(** ** The tests of the source files, replayed *)

Example test_basic_types :
  Strict.getTypesOfItems knownTypes =
  Ok (map Some
        ["boolean"; "number"; "string"; "object"; "object"; "function";
         "undefined"; "object"; "number"; "number"; "object"; "object";
         "object"; "object"; "symbol"; "object"; "object"; "object";
         "object"]).
Proof. reflexivity. Qed.

Example test_real_types :
  Strict.getRealTypesOfItems knownTypes =
  Ok (map Some
        ["boolean"; "number"; "string"; "array"; "object"; "function";
         "undefined"; "null"; "NaN"; "Infinity"; "date"; "regexp"; "set";
         "map"; "symbol"; "error"; "arrayBuffer"; "dataView"; "promise"]).
Proof. reflexivity. Qed.

Example test_no_repeated_types :
  Strict.everyItemHasAUniqueRealType knownTypes = Ok true.
Proof. reflexivity. Qed.

Example test_count_unique_types :
  Strict.countRealTypes five_items =
    Ok [("boolean", 3); ("null", 1); ("object", 1)] /\
  Permissive.countRealTypes five_items =
    Ok [("boolean", 3); ("null", 1); ("object", 1)].
Proof. split; reflexivity. Qed.

Example test_strings_but_wait :
  Strict.allItemsHaveTheSameType wrapped_string = Ok false /\
  Permissive.allItemsHaveTheSameType wrapped_string = Ok false.
Proof. split; reflexivity. Qed.

Example test_values_like_a_number :
  Strict.allItemsHaveTheSameType
    (VArray 130 []
       [Some (VNumber (S754_finite false 123 0)); Some not_a_number;
        Some infinity]) = Ok true.
Proof. reflexivity. Qed.

(** The order of the chain shows on values with more than one shape. *)
Example array_before_date :
  Strict.getRealType array_with_Date_prototype = "array" /\
  Permissive.getRealType array_with_Date_prototype = "array".
Proof. split; reflexivity. Qed.

Example function_instance_of_Date :
  Strict.getRealType function_with_Date_prototype = "date" /\
  Permissive.getRealType function_with_Date_prototype = "function".
Proof. split; reflexivity. Qed.

(** ** String order *)

Lemma ascii_compare_refl (c : ascii) : Ascii.compare c c = Eq.
Proof. unfold Ascii.compare. apply N.compare_refl. Qed.

Lemma ascii_compare_lt_trans (a b c : ascii) :
  Ascii.compare a b = Lt -> Ascii.compare b c = Lt -> Ascii.compare a c = Lt.
Proof.
  unfold Ascii.compare. rewrite !N.compare_lt_iff. apply N.lt_trans.
Qed.

Lemma string_compare_refl (s : string) : String.compare s s = Eq.
Proof.
  induction s as [|c s IH]; simpl; [reflexivity|].
  now rewrite ascii_compare_refl.
Qed.

Lemma string_compare_lt_trans (s1 s2 s3 : string) :
  String.compare s1 s2 = Lt -> String.compare s2 s3 = Lt ->
  String.compare s1 s3 = Lt.
Proof.
  revert s2 s3.
  induction s1 as [|c1 s1 IH]; intros [|c2 s2] [|c3 s3]; simpl;
    try discriminate; auto.
  destruct (Ascii.compare c1 c2) eqn:E12; try discriminate;
    destruct (Ascii.compare c2 c3) eqn:E23; try discriminate; intros H12 H23.
  - apply Ascii.compare_eq_iff in E12, E23. subst.
    rewrite ascii_compare_refl. eauto.
  - apply Ascii.compare_eq_iff in E12. subst. now rewrite E23.
  - apply Ascii.compare_eq_iff in E23. subst. now rewrite E12.
  - now rewrite (ascii_compare_lt_trans _ _ _ E12 E23).
Qed.

Lemma string_compare_gt_lt (s1 s2 : string) :
  String.compare s1 s2 = Gt <-> String.compare s2 s1 = Lt.
Proof.
  rewrite (String.compare_antisym s2 s1).
  destruct (String.compare s1 s2); simpl; split; congruence.
Qed.

Lemma string_leb_trans (s1 s2 s3 : string) :
  String.leb s1 s2 = true -> String.leb s2 s3 = true ->
  String.leb s1 s3 = true.
Proof.
  unfold String.leb.
  destruct (String.compare s1 s2) eqn:E12; try discriminate;
    destruct (String.compare s2 s3) eqn:E23; try discriminate; intros _ _.
  - apply String.compare_eq_iff in E12, E23. subst.
    now rewrite string_compare_refl.
  - apply String.compare_eq_iff in E12. subst. now rewrite E23.
  - apply String.compare_eq_iff in E23. subst. now rewrite E12.
  - now rewrite (string_compare_lt_trans _ _ _ E12 E23).
Qed.

Lemma string_leb_neq_ltb (s1 s2 : string) :
  String.leb s1 s2 = true -> s1 <> s2 -> String.ltb s1 s2 = true.
Proof.
  unfold String.leb, String.ltb.
  destruct (String.compare s1 s2) eqn:E; try discriminate; auto.
  apply String.compare_eq_iff in E. congruence.
Qed.

Lemma compare_append_differ (s1 s2 t1 t2 : string) :
  differ_inside s1 s2 = true ->
  String.compare (s1 ++ t1) (s2 ++ t2) = String.compare s1 s2.
Proof.
  revert s2.
  induction s1 as [|c1 s1 IH]; intros [|c2 s2]; simpl; try discriminate.
  destruct (Ascii.eqb_spec c1 c2) as [->|Hne]; intros H.
  - rewrite ascii_compare_refl. auto.
  - destruct (Ascii.compare c1 c2) eqn:E; auto.
    apply Ascii.compare_eq_iff in E. contradiction.
Qed.

(** ** Sorting *)

Lemma sum_counts_perm (l l' : Entries) :
  Permutation l l' -> list_sum (map snd l) = list_sum (map snd l').
Proof.
  induction 1; simpl; lia.
Qed.

Section SortFacts.
Context {A : Type} (cmp : A -> A -> Z).

Let le (x y : A) : Prop := (cmp x y <= 0)%Z.

Lemma insert_perm (x : A) (l : list A) :
  Permutation (insert cmp x l) (x :: l).
Proof.
  induction l as [|y l IH]; simpl; [reflexivity|].
  destruct (cmp x y <=? 0)%Z; [reflexivity|].
  rewrite IH. apply perm_swap.
Qed.

Lemma sort_perm (l : list A) : Permutation (sort cmp l) l.
Proof.
  induction l as [|x l IH]; simpl; [reflexivity|].
  rewrite insert_perm. now constructor.
Qed.

(** The comparator is consistent: total and transitive. *)
Hypothesis le_total : forall x y, le x y \/ le y x.
Hypothesis le_trans : forall x y z, le x y -> le y z -> le x z.

Lemma insert_sorted (x : A) (l : list A) :
  StronglySorted le l -> StronglySorted le (insert cmp x l).
Proof.
  induction 1 as [|y l Hs IH Hy]; simpl.
  - repeat constructor.
  - destruct (Z.leb_spec (cmp x y) 0) as [Hle|Hgt].
    + constructor; [now constructor|].
      constructor; [exact Hle|].
      eapply Forall_impl; [|exact Hy]. intros z Hz. now apply le_trans with y.
    + constructor; [exact IH|].
      assert (Hyx : le y x) by (destruct (le_total x y); unfold le in *; lia).
      rewrite Forall_forall in *. intros z Hz.
      apply (Permutation_in _ (insert_perm x l)) in Hz.
      destruct Hz as [<-|Hz]; auto.
Qed.

Lemma sort_sorted (l : list A) : StronglySorted le (sort cmp l).
Proof.
  induction l as [|x l IH]; simpl; [constructor|].
  now apply insert_sorted.
Qed.
End SortFacts.

(** ** The [Set] of [everyItemHasAUniqueRealType] *)

Lemma set_has_In (types : list string) (type : string) :
  set_has types type = true <-> In type types.
Proof.
  unfold set_has. rewrite existsb_exists. split.
  - intros (x & Hx & He). apply String.eqb_eq in He. now subst.
  - intros H. exists type. split; [exact H|apply String.eqb_refl].
Qed.

Lemma unique_loop_spec (g : Value -> string) (l : list Value)
      (types : list string) :
  unique_loop g l types = true <->
  NoDup (map g l) /\ (forall x, In x (map g l) -> ~ In x types).
Proof.
  revert types. induction l as [|item rest IH]; intros types; simpl.
  - split; [intros _; split; [constructor|intros x []]|reflexivity].
  - destruct (set_has types (g item)) eqn:Hhas.
    + apply set_has_In in Hhas. split; [discriminate|].
      intros [_ H]. exfalso. apply (H (g item)); auto.
    + assert (Hnot : ~ In (g item) types).
      { rewrite <- set_has_In. congruence. }
      rewrite IH. unfold set_add. rewrite Hhas. split.
      * intros [Hnd Hfresh]. split.
        -- constructor; [|exact Hnd].
           intros Hin. apply (Hfresh _ Hin). apply in_or_app. simpl. auto.
        -- intros x [<-|Hin]; [exact Hnot|].
           intros Hx. apply (Hfresh _ Hin). apply in_or_app. auto.
      * intros [Hnd Hfresh]. inversion Hnd as [|? ? Hhead Htail]; subst.
        split; [exact Htail|].
        intros x Hin Hx. apply in_app_or in Hx. destruct Hx as [Hx|[<-|[]]].
        -- apply (Hfresh x); auto.
        -- contradiction.
Qed.

(** ** The [Map] of [countRealTypes] *)

Lemma map_has_In (result : Entries) (type : string) :
  map_has result type = true <-> In type (keys result).
Proof.
  unfold map_has, keys. rewrite existsb_exists, in_map_iff. split.
  - intros (e & He & Heq). apply String.eqb_eq in Heq. exists e. auto.
  - intros (e & Heq & He). exists e. split; [exact He|].
    subst. apply String.eqb_refl.
Qed.

Lemma map_get_absent (result : Entries) (type : string) :
  ~ In type (keys result) -> map_get result type = 0.
Proof.
  induction result as [|[k w] rest IH]; simpl; [reflexivity|]. intros H.
  destruct (String.eqb_spec type k) as [->|Hne]; [exfalso; auto|].
  apply IH. auto.
Qed.

Lemma map_get_set (result : Entries) (type : string) (v : nat) (k : string) :
  map_get (map_set result type v) k =
  if String.eqb k type then v else map_get result k.
Proof.
  induction result as [|[k0 w] rest IH]; simpl.
  - reflexivity.
  - destruct (String.eqb_spec type k0) as [->|Hne]; simpl.
    + destruct (String.eqb_spec k k0); reflexivity.
    + rewrite IH.
      destruct (String.eqb_spec k k0) as [->|Hk]; [|reflexivity].
      destruct (String.eqb_spec k0 type); congruence.
Qed.

Lemma sum_counts_set (result : Entries) (type : string) (v : nat) :
  sum_counts (map_set result type v) + map_get result type =
  sum_counts result + v.
Proof.
  unfold sum_counts.
  induction result as [|[k0 w] rest IH]; simpl; [lia|].
  destruct (String.eqb_spec type k0); simpl; lia.
Qed.

Lemma keys_set (result : Entries) (type : string) (v : nat) :
  keys (map_set result type v) =
  if map_has result type then keys result else keys result ++ [type].
Proof.
  unfold keys, map_has.
  induction result as [|[k0 w] rest IH]; simpl; [reflexivity|].
  destruct (String.eqb_spec type k0) as [->|Hne]; simpl; [reflexivity|].
  rewrite IH. now destruct (existsb _ rest).
Qed.

Lemma map_get_In (result : Entries) (k : string) (c : nat) :
  NoDup (keys result) -> In (k, c) result -> map_get result k = c.
Proof.
  induction result as [|[k0 w] rest IH]; simpl; [intros _ []|].
  intros Hnd [Heq|Hin]; inversion Hnd as [|? ? Hhead Htail]; subst.
  - inversion Heq; subst. now rewrite String.eqb_refl.
  - destruct (String.eqb_spec k k0) as [->|Hne]; [|auto].
    exfalso. apply Hhead. change (In (fst (k0, c)) (keys rest)).
    now apply in_map.
Qed.

Section CountLoop.
Variable g : Value -> string.

Lemma count_loop_cons (item : Value) (rest : list Value) (r : Entries) :
  count_loop g (item :: rest) r = count_loop g rest (bump r (g item)).
Proof.
  simpl. unfold bump. destruct (map_has r (g item)) eqn:Hhas; [reflexivity|].
  rewrite map_get_absent; [reflexivity|].
  rewrite <- map_has_In. congruence.
Qed.

Lemma count_loop_get (l : list Value) (r : Entries) (k : string) :
  map_get (count_loop g l r) k =
  map_get r k + count_occ string_dec (map g l) k.
Proof.
  revert r. induction l as [|item rest IH]; intros r.
  - simpl. lia.
  - rewrite count_loop_cons, IH. unfold bump. rewrite map_get_set.
    cbn [map count_occ].
    destruct (string_dec (g item) k) as [->|Hne].
    + rewrite String.eqb_refl. lia.
    + destruct (String.eqb_spec k (g item)); [congruence|lia].
Qed.

Lemma count_loop_sum (l : list Value) (r : Entries) :
  sum_counts (count_loop g l r) = sum_counts r + List.length l.
Proof.
  revert r. induction l as [|item rest IH]; intros r.
  - simpl. lia.
  - rewrite count_loop_cons, IH. unfold bump.
    pose proof (sum_counts_set r (g item) (map_get r (g item) + 1)).
    simpl. lia.
Qed.

Lemma count_loop_keys (l : list Value) (r : Entries) (k : string) :
  In k (keys (count_loop g l r)) <-> In k (keys r) \/ In k (map g l).
Proof.
  revert r. induction l as [|item rest IH]; intros r.
  - simpl. tauto.
  - rewrite count_loop_cons, IH. unfold bump. rewrite keys_set.
    destruct (map_has r (g item)) eqn:Hhas; simpl.
    + apply map_has_In in Hhas. split; [tauto|].
      intros [H|[<-|H]]; auto.
    + rewrite in_app_iff. simpl. tauto.
Qed.

Lemma count_loop_NoDup (l : list Value) (r : Entries) :
  NoDup (keys r) -> NoDup (keys (count_loop g l r)).
Proof.
  revert r. induction l as [|item rest IH]; intros r Hnd; [exact Hnd|].
  rewrite count_loop_cons. apply IH. unfold bump. rewrite keys_set.
  destruct (map_has r (g item)) eqn:Hhas; [exact Hnd|].
  apply NoDup_app; [exact Hnd|repeat constructor; intros []|].
  intros x Hx [<-|[]]. apply map_has_In in Hx. congruence.
Qed.
End CountLoop.

(** ** Sorted entries *)

(** A list sorted for [R] whose keys are distinct and lie in [P] is sorted
    strictly by label, as soon as [R] orders the labels of [P]. *)
Lemma sorted_distinct_keys (R : string * nat -> string * nat -> Prop)
      (P : string -> Prop) (res : Entries) :
  (forall a b, P (fst a) -> P (fst b) -> fst a <> fst b -> R a b ->
               (fst a <? fst b)%string = true) ->
  NoDup (keys res) -> (forall e, In e res -> P (fst e)) ->
  StronglySorted R res -> sorted_by_label res.
Proof.
  intros HR Hnd HP Hs. unfold sorted_by_label.
  induction Hs as [|a l Hs IH Ha]; [constructor|].
  inversion Hnd as [|? ? Hhead Htail]; subst.
  constructor.
  - apply IH; [exact Htail|]. intros e He. apply HP. now right.
  - rewrite Forall_forall in *. intros b Hb.
    apply HR; [apply HP; now left|apply HP; now right| |now apply Ha].
    intros Heq. apply Hhead. rewrite Heq. now apply in_map.
Qed.

Section CountAndSort.
Variable g : Value -> string.
Variable cmp : string * nat -> string * nat -> Z.
Variable l : list Value.

(** The comparator sorts the entries of the loop by label. *)
Hypothesis sort_by_label :
  sorted_by_label (sort cmp (count_loop g l [])).

Lemma count_and_sort :
  frequency_count (map g l) (sort cmp (count_loop g l [])).
Proof.
  pose proof (sort_perm cmp (count_loop g l [])) as Hperm.
  assert (Hnd : NoDup (keys (count_loop g l []))).
  { apply count_loop_NoDup. constructor. }
  split.
  - unfold keys. eapply Permutation_NoDup; [|exact Hnd].
    apply Permutation_map. now symmetry.
  - intros k. unfold keys at 1.
    rewrite (Permutation_in' (x := k) eq_refl (Permutation_map fst Hperm)).
    fold (keys (count_loop g l [])). rewrite count_loop_keys. simpl. tauto.
  - intros k c Hin. apply (Permutation_in _ Hperm) in Hin.
    apply (map_get_In _ _ _ Hnd) in Hin.
    rewrite count_loop_get in Hin. simpl in Hin. lia.
  - exact sort_by_label.
  - unfold sum_counts. rewrite (sum_counts_perm Hperm).
    fold (sum_counts (count_loop g l [])).
    rewrite count_loop_sum, length_map. reflexivity.
Qed.
End CountAndSort.

(** The comparator of the strict variants orders entries by label. *)
Lemma compare_by_type_le (a b : string * nat) :
  (compare_by_type a b <= 0)%Z <-> (fst a <=? fst b)%string = true.
Proof.
  unfold compare_by_type, string_gtb, String.ltb, String.leb.
  destruct (String.compare (fst a) (fst b)); split; intros; (lia || congruence).
Qed.

Lemma sort_compare_by_type (res : Entries) :
  NoDup (keys res) -> sorted_by_label (sort compare_by_type res).
Proof.
  intros Hnd.
  apply sorted_distinct_keys
    with (R := fun a b => (compare_by_type a b <= 0)%Z) (P := fun _ => True).
  - intros a b _ _ Hne Hle. apply string_leb_neq_ltb; [|exact Hne].
    now apply compare_by_type_le.
  - unfold keys. eapply Permutation_NoDup; [|exact Hnd].
    apply Permutation_map. symmetry. apply sort_perm.
  - trivial.
  - apply sort_sorted.
    + intros x y. rewrite !compare_by_type_le. apply String.leb_total.
    + intros x y z. rewrite !compare_by_type_le. apply string_leb_trans.
Qed.

(** The default comparator orders entries by their string form. *)
Lemma default_compare_le (a b : string * nat) :
  (default_compare a b <= 0)%Z <->
  (entry_toString a <=? entry_toString b)%string = true.
Proof.
  unfold default_compare, String.leb.
  destruct (String.compare _ _); simpl; split; intros; (lia || congruence).
Qed.

(** On prefix-free labels that is the order of the labels. *)
Lemma sort_default_compare (labels : list string) (res : Entries) :
  prefix_free labels = true ->
  NoDup (keys res) -> (forall e, In e res -> In (fst e) labels) ->
  sorted_by_label (sort default_compare res).
Proof.
  intros Hfree Hnd Hin.
  apply sorted_distinct_keys
    with (R := fun a b => (default_compare a b <= 0)%Z)
         (P := fun k => In k labels).
  - intros a b Ha Hb Hne Hle. apply default_compare_le in Hle.
    unfold prefix_free in Hfree. rewrite forallb_forall in Hfree.
    specialize (Hfree _ Ha). rewrite forallb_forall in Hfree.
    specialize (Hfree _ Hb). apply orb_true_iff in Hfree.
    destruct Hfree as [Heq|Hdiff]; [apply String.eqb_eq in Heq; contradiction|].
    unfold entry_toString, String.leb in Hle.
    rewrite (compare_append_differ _ _ _ _ Hdiff) in Hle.
    apply string_leb_neq_ltb; [exact Hle|exact Hne].
  - unfold keys. eapply Permutation_NoDup; [|exact Hnd].
    apply Permutation_map. symmetry. apply sort_perm.
  - intros e He. apply Hin. eapply Permutation_in; [apply sort_perm|exact He].
  - apply sort_sorted.
    + intros x y. rewrite !default_compare_le. apply String.leb_total.
    + intros x y z. rewrite !default_compare_le. apply string_leb_trans.
Qed.

(** ** Labels *)

Ltac split_ifs :=
  repeat match goal with
         | |- context [if ?c then _ else _] => destruct c
         end.

Lemma getType_coarse (value : Value) : In (getType value) coarse_labels.
Proof.
  destruct value as [| | | | | | | |r [|] c]; simpl; auto 10.
Qed.

Lemma permissive_getRealType_range (value : Value) :
  In (Permissive.getRealType value) permissive_labels.
Proof.
  destruct value as [| | |[]| | | | |r [|] c];
    unfold Permissive.getRealType; simpl; split_ifs; simpl; auto 20.
Qed.

Lemma permissive_labels_prefix_free : prefix_free permissive_labels = true.
Proof. reflexivity. Qed.

(** ** Frequency count *)

Lemma strict_count (g : Value -> string) (l : list Value) :
  frequency_count (map g l) (sort compare_by_type (count_loop g l [])).
Proof.
  apply count_and_sort. apply sort_compare_by_type.
  apply count_loop_NoDup. constructor.
Qed.

Lemma permissive_count (l : list Value) :
  frequency_count (map Permissive.getRealType l)
    (sort default_compare (count_loop Permissive.getRealType l [])).
Proof.
  apply count_and_sort.
  apply sort_default_compare with (labels := permissive_labels).
  - exact permissive_labels_prefix_free.
  - apply count_loop_NoDup. constructor.
  - intros e He.
    assert (Hk : In (fst e) (keys (count_loop Permissive.getRealType l [])))
      by now apply in_map.
    apply count_loop_keys in Hk. destruct Hk as [[]|Hk].
    apply in_map_iff in Hk. destruct Hk as (v & <- & _).
    apply permissive_getRealType_range.
Qed.

Lemma length_items (arr : Value) : List.length (items arr) = length_of arr.
Proof. unfold items, length_of. apply length_map. Qed.

(** C1.  For every array [arr], [countRealTypes] returns one (refined
    label, count) pair per distinct refined label occurring in [arr]; each
    count is the number of elements of [arr] with that refined label; the
    pairs are sorted ascending by label under string comparison; and the
    counts add up to the length of [arr].  This holds in the three
    variants, the permissive one sorting with the default comparator. *)
Theorem countRealTypes_frequency_count (arr : Value) :
  isArray arr = true ->
  counts_real_types Strict.getRealType Strict.countRealTypes arr /\
  counts_real_types TS.getRealType TS.countRealTypes arr /\
  counts_real_types Permissive.getRealType Permissive.countRealTypes arr.
Proof.
  intros Harr. unfold counts_real_types.
  unfold Strict.countRealTypes, TS.countRealTypes, Permissive.countRealTypes.
  rewrite Harr. simpl negb. cbv iota zeta.
  repeat split; eexists; (split; [reflexivity|]); split;
    try apply strict_count; try apply permissive_count;
    match goal with
    | |- sum_counts (sort ?cmp (count_loop ?g ?l [])) = _ =>
        first [ rewrite (fc_sum (strict_count g l))
              | rewrite (fc_sum (permissive_count l)) ];
        rewrite length_map; apply length_items
    end.
Qed.

Lemma countRealTypes_frequency_count_witness :
  isArray five_items = true /\
  counts_real_types Strict.getRealType Strict.countRealTypes five_items /\
  counts_real_types TS.getRealType TS.countRealTypes five_items /\
  counts_real_types Permissive.getRealType Permissive.countRealTypes five_items.
Proof.
  split; [reflexivity|].
  apply (countRealTypes_frequency_count five_items). reflexivity.
Defined.

(** ** Uniqueness check *)

Lemma unique_loop_NoDup (g : Value -> string) (l : list Value) :
  unique_loop g l [] = true <-> NoDup (map g l).
Proof.
  rewrite unique_loop_spec. split; [tauto|]. intros H. split; auto.
Qed.

Lemma checks_uniqueness_loop (g : Value -> string) (arr : Value) :
  checks_uniqueness g (fun arr => Ok (unique_loop g (items arr) [])) arr.
Proof.
  eexists. split; [reflexivity|]. split; [apply unique_loop_NoDup|].
  intros Hlen. rewrite <- length_items in Hlen.
  apply length_zero_iff_nil in Hlen. now rewrite Hlen.
Qed.

(** C3.  For every array [arr], [everyItemHasAUniqueRealType] returns
    [true] if and only if no two elements of [arr] have the same refined
    label; in particular it returns [true] for the empty array.  This
    holds in the three variants. *)
Theorem everyItemHasAUniqueRealType_iff_NoDup (arr : Value) :
  isArray arr = true ->
  checks_uniqueness Strict.getRealType Strict.everyItemHasAUniqueRealType arr /\
  checks_uniqueness TS.getRealType TS.everyItemHasAUniqueRealType arr /\
  checks_uniqueness Permissive.getRealType
    Permissive.everyItemHasAUniqueRealType arr.
Proof.
  intros Harr.
  pose proof (checks_uniqueness_loop Strict.getRealType arr) as HS.
  pose proof (checks_uniqueness_loop TS.getRealType arr) as HT.
  pose proof (checks_uniqueness_loop Permissive.getRealType arr) as HP.
  unfold checks_uniqueness in *.
  unfold Strict.everyItemHasAUniqueRealType, TS.everyItemHasAUniqueRealType,
    Permissive.everyItemHasAUniqueRealType.
  rewrite Harr. simpl negb. cbv iota. auto.
Qed.

Lemma everyItemHasAUniqueRealType_iff_NoDup_witness :
  isArray three_unique = true /\
  checks_uniqueness Strict.getRealType Strict.everyItemHasAUniqueRealType
    three_unique /\
  checks_uniqueness TS.getRealType TS.everyItemHasAUniqueRealType
    three_unique /\
  checks_uniqueness Permissive.getRealType
    Permissive.everyItemHasAUniqueRealType three_unique.
Proof.
  split; [reflexivity|].
  apply (everyItemHasAUniqueRealType_iff_NoDup three_unique). reflexivity.
Defined.

(** ** Uniqueness against frequency count *)

Lemma frequency_count_ones (labels : list string) (res : Entries) :
  frequency_count labels res ->
  (NoDup labels <-> Forall (fun e => snd e = 1) res).
Proof.
  intros [Hnd Hkeys Hcount _ _].
  rewrite (NoDup_count_occ string_dec), Forall_forall. split.
  - intros Hle [k c] Hin. simpl.
    assert (Hk : In k labels).
    { apply Hkeys. change (In (fst (k, c)) (keys res)). now apply in_map. }
    apply (count_occ_In string_dec) in Hk.
    specialize (Hle k). rewrite (Hcount _ _ Hin). lia.
  - intros Hone k.
    destruct (in_dec string_dec k labels) as [Hin|Hout].
    + apply Hkeys in Hin. apply in_map_iff in Hin.
      destruct Hin as ([k' c] & Heq & Hin). simpl in Heq. subst k'.
      rewrite <- (Hcount _ _ Hin). specialize (Hone _ Hin). simpl in Hone.
      lia.
    + apply (count_occ_not_In string_dec) in Hout. lia.
Qed.

(** C8.  For every array [arr], [everyItemHasAUniqueRealType arr] returns
    [true] if and only if every count in the pairs returned by
    [countRealTypes arr] equals 1.  This holds in the three variants. *)
Theorem unique_iff_every_count_is_one (arr : Value) :
  isArray arr = true ->
  unique_iff_ones Strict.everyItemHasAUniqueRealType Strict.countRealTypes arr /\
  unique_iff_ones TS.everyItemHasAUniqueRealType TS.countRealTypes arr /\
  unique_iff_ones Permissive.everyItemHasAUniqueRealType
    Permissive.countRealTypes arr.
Proof.
  intros Harr. unfold unique_iff_ones.
  unfold Strict.everyItemHasAUniqueRealType, TS.everyItemHasAUniqueRealType,
    Permissive.everyItemHasAUniqueRealType,
    Strict.countRealTypes, TS.countRealTypes, Permissive.countRealTypes.
  rewrite Harr. simpl negb. cbv iota zeta.
  repeat split; do 2 eexists; (split; [reflexivity|]);
    (split; [reflexivity|]); rewrite unique_loop_NoDup;
    apply frequency_count_ones;
    first [apply strict_count | apply permissive_count].
Qed.

Lemma unique_iff_every_count_is_one_witness :
  isArray five_items = true /\
  unique_iff_ones Strict.everyItemHasAUniqueRealType Strict.countRealTypes
    five_items /\
  unique_iff_ones TS.everyItemHasAUniqueRealType TS.countRealTypes
    five_items /\
  unique_iff_ones Permissive.everyItemHasAUniqueRealType
    Permissive.countRealTypes five_items.
Proof.
  split; [reflexivity|].
  apply (unique_iff_every_count_is_one five_items). reflexivity.
Defined.

(** ** Uniformity check *)

Lemma same_type_loop_spec (arr : Value) (type : string) (i n : nat) :
  same_type_loop arr type i n = true <->
  (forall j, i <= j < i + n -> typeof (index arr j) = type).
Proof.
  revert i. induction n as [|n IH]; intros i; simpl.
  - split; [intros _ j Hj; lia|reflexivity].
  - destruct (String.eqb_spec (typeof (index arr i)) type) as [Heq|Hne]; simpl.
    + rewrite IH. split; intros H j Hj.
      * destruct (Nat.eq_dec j i) as [->|Hji]; [exact Heq|apply H; lia].
      * apply H. lia.
    + split; [discriminate|]. intros H. exfalso. apply Hne, H. lia.
Qed.

Lemma items_index (arr : Value) (P : Value -> Prop) :
  Forall P (items arr) <-> (forall j, j < length_of arr -> P (index arr j)).
Proof.
  unfold items, index, length_of. rewrite Forall_forall. split.
  - intros H j Hj. apply H.
    change VUndefined with (read None).
    rewrite <- map_nth with (f := read) (d := @None Value).
    apply nth_In. now rewrite length_map.
  - intros H x Hx. apply (In_nth _ _ VUndefined) in Hx.
    destruct Hx as (j & Hj & <-). rewrite length_map in Hj.
    change VUndefined with (read None). rewrite map_nth. now apply H.
Qed.

Lemma same_type_loop_uniform (arr : Value) :
  1 <= length_of arr ->
  same_type_loop arr (typeof (index arr 0)) 1 (length_of arr - 1) = true <->
  uniform arr.
Proof.
  intros Hlen. rewrite same_type_loop_spec. unfold uniform, getType.
  rewrite items_index. split.
  - intros H. right. intros j Hj.
    destruct j as [|j]; [reflexivity|apply H; lia].
  - intros [Hle|H] j Hj; [lia|apply H; lia].
Qed.

(** C4.  For every array [arr], [allItemsHaveTheSameType] returns [true]
    if [arr] has 0 or 1 elements or if every element's coarse label equals
    the first element's coarse label, and [false] otherwise.  This holds
    in the three variants. *)
Theorem allItemsHaveTheSameType_uniform (arr : Value) :
  isArray arr = true ->
  checks_uniformity Strict.allItemsHaveTheSameType arr /\
  checks_uniformity TS.allItemsHaveTheSameType arr /\
  checks_uniformity Permissive.allItemsHaveTheSameType arr.
Proof.
  intros Harr. unfold checks_uniformity.
  unfold Strict.allItemsHaveTheSameType, TS.allItemsHaveTheSameType,
    Permissive.allItemsHaveTheSameType.
  rewrite Harr. simpl negb. cbv iota zeta.
  assert (Hstrict : exists b,
    (if (length_of arr <=? 1)%nat then Ok true
     else Ok (same_type_loop arr (typeof (index arr 0)) 1 (length_of arr - 1)))
    = Ok b /\ (b = true <-> uniform arr)).
  { destruct (Nat.leb_spec (length_of arr) 1) as [Hle|Hgt].
    - exists true. split; [reflexivity|]. unfold uniform. tauto.
    - eexists. split; [reflexivity|]. apply same_type_loop_uniform. lia. }
  repeat split; try exact Hstrict.
  destruct (Nat.eqb_spec (length_of arr) 0) as [Hz|Hnz].
  - exists true. split; [reflexivity|]. unfold uniform. split; [|reflexivity].
    intros _. left. lia.
  - eexists. split; [reflexivity|]. apply same_type_loop_uniform. lia.
Qed.

Lemma allItemsHaveTheSameType_uniform_witness :
  isArray wrapped_string = true /\
  checks_uniformity Strict.allItemsHaveTheSameType wrapped_string /\
  checks_uniformity TS.allItemsHaveTheSameType wrapped_string /\
  checks_uniformity Permissive.allItemsHaveTheSameType wrapped_string.
Proof.
  split; [reflexivity|].
  apply (allItemsHaveTheSameType_uniform wrapped_string). reflexivity.
Defined.

(** ** The refined classifier on numbers *)

(** C5.  For every value whose coarse label is ["number"], [getRealType]
    returns ["NaN"] on the not-a-number value, otherwise ["Infinity"] if the
    value is not finite, otherwise ["number"].  The numeric checks come
    first in the three variants, and no reference-shape check holds of such
    a value, so none can override them. *)
Theorem getRealType_number (value : Value) :
  getType value = "number" ->
  Strict.getRealType value = numeric_label value /\
  TS.getRealType value = numeric_label value /\
  Permissive.getRealType value = numeric_label value /\
  no_reference_shape value.
Proof.
  unfold no_reference_shape.
  destruct value as [| | |x| | | | |r [|] c]; simpl; try discriminate.
  intros _. destruct x as [s|s| |s m e]; repeat split; reflexivity.
Qed.

Lemma getRealType_number_witness :
  getType not_a_number = "number" /\
  Strict.getRealType not_a_number = numeric_label not_a_number /\
  TS.getRealType not_a_number = numeric_label not_a_number /\
  Permissive.getRealType not_a_number = numeric_label not_a_number /\
  no_reference_shape not_a_number.
Proof.
  split; [reflexivity|].
  apply (getRealType_number not_a_number). reflexivity.
Defined.

(** ** Non-array input *)

(** C6.  Each variant applies one policy to a non-array input across its
    sequence classifiers: the strict variants throw a [TypeError] in every
    one of them, the permissive variant returns the empty array from the
    listing and count operations and [false] from the uniformity and
    uniqueness checks. *)
Theorem non_array_policy (arr : Value) :
  isArray arr = false ->
  strict_policy Strict.getTypesOfItems Strict.getRealTypesOfItems
    Strict.allItemsHaveTheSameType Strict.everyItemHasAUniqueRealType
    Strict.countRealTypes arr /\
  strict_policy TS.getTypesOfItems TS.getRealTypesOfItems
    TS.allItemsHaveTheSameType TS.everyItemHasAUniqueRealType
    TS.countRealTypes arr /\
  permissive_policy arr.
Proof.
  intros Harr. unfold strict_policy, permissive_policy.
  unfold Strict.getTypesOfItems, Strict.getRealTypesOfItems,
    Strict.allItemsHaveTheSameType, Strict.everyItemHasAUniqueRealType,
    Strict.countRealTypes,
    TS.getTypesOfItems, TS.getRealTypesOfItems,
    TS.allItemsHaveTheSameType, TS.everyItemHasAUniqueRealType,
    TS.countRealTypes,
    Permissive.getTypesOfItems, Permissive.getRealTypesOfItems,
    Permissive.allItemsHaveTheSameType,
    Permissive.everyItemHasAUniqueRealType, Permissive.countRealTypes.
  rewrite Harr. simpl. repeat split.
Qed.

Lemma non_array_policy_witness :
  isArray (VString "whoo") = false /\
  strict_policy Strict.getTypesOfItems Strict.getRealTypesOfItems
    Strict.allItemsHaveTheSameType Strict.everyItemHasAUniqueRealType
    Strict.countRealTypes (VString "whoo") /\
  strict_policy TS.getTypesOfItems TS.getRealTypesOfItems
    TS.allItemsHaveTheSameType TS.everyItemHasAUniqueRealType
    TS.countRealTypes (VString "whoo") /\
  permissive_policy (VString "whoo").
Proof.
  split; [reflexivity|].
  apply (non_array_policy (VString "whoo")). reflexivity.
Defined.

(** ** Totality and the label vocabulary *)

(** The labels on the values without Proxy: [getType] returns a label of
    the coarse vocabulary, and the label [getRealType] returns is the
    coarse label of the value or one of the enumerated refinements (null,
    array, NaN, Infinity, date, regexp, set, map, error, arrayBuffer,
    dataView, promise), in the three variants. *)
Theorem classifiers_total (value : Value) :
  (exists label, getType value = label /\ In label coarse_labels) /\
  (exists label, Strict.getRealType value = label /\
                 (label = getType value \/ In label refinements)) /\
  (exists label, TS.getRealType value = label /\
                 (label = getType value \/ In label refinements)) /\
  (exists label, Permissive.getRealType value = label /\
                 (label = getType value \/ In label refinements)).
Proof.
  split; [eexists; split; [reflexivity|apply getType_coarse]|].
  repeat split; eexists; (split; [reflexivity|]);
    destruct value as [| | |[]| | | | |r [|] c];
    unfold Strict.getRealType, TS.getRealType, Permissive.getRealType;
    simpl; split_ifs; simpl; auto 20.
Qed.

(** On a value without Proxy no primitive operation throws, and the
    transcription over [JSValue] returns what the one over [Value]
    returns. *)
Lemma getRealType_Plain (value : Value) :
  StrictJS.getRealType (Plain value) = Ok (Strict.getRealType value) /\
  TSJS.getRealType (Plain value) = Ok (TS.getRealType value) /\
  PermissiveJS.getRealType (Plain value) = Ok (Permissive.getRealType value).
Proof.
  destruct value as [| | |[]| | | | |r [|] c];
    unfold StrictJS.getRealType, TSJS.getRealType, PermissiveJS.getRealType,
      Strict.getRealType, TS.getRealType, Permissive.getRealType;
    simpl; repeat split; split_ifs; reflexivity.
Qed.

(** C7, counterexample.  [getRealType] fails on a revoked Proxy: the value
    is an ["object"] and is not [null], and [Array.isArray] throws a
    [TypeError] on it, in the three variants.  In the strict variants the
    same happens on a revoked Proxy of a function. *)
Lemma getRealType_throws_on_revoked_Proxy :
  JS.getType revoked_Proxy = "object" /\
  StrictJS.getRealType revoked_Proxy = TypeError revoked_message /\
  TSJS.getRealType revoked_Proxy = TypeError revoked_message /\
  PermissiveJS.getRealType revoked_Proxy = TypeError revoked_message /\
  StrictJS.getRealType revoked_function_Proxy = TypeError revoked_message /\
  TSJS.getRealType revoked_function_Proxy = TypeError revoked_message /\
  ~ returns_label StrictJS.getRealType revoked_Proxy /\
  ~ returns_label TSJS.getRealType revoked_Proxy /\
  ~ returns_label PermissiveJS.getRealType revoked_Proxy.
Proof.
  repeat split; intros (label & H & _); discriminate H.
Qed.

(** C7, amended.  [getType] returns one label of the coarse vocabulary on
    every value, a revoked Proxy included.  On every value without Proxy
    (the value is no Proxy and has none on its prototype chain)
    [getRealType] returns one label without failing, and that label is the
    coarse label of the value or one of the enumerated refinements
    (null, array, NaN, Infinity, date, regexp, set, map, error,
    arrayBuffer, dataView, promise), in the three variants.  The
    permissive variant, which inspects objects only, also returns
    ["function"] on a revoked Proxy of a function. *)
Theorem classifiers_total_without_Proxy (x : JSValue) (value : Value) :
  In (JS.getType x) coarse_labels /\
  returns_label StrictJS.getRealType (Plain value) /\
  returns_label TSJS.getRealType (Plain value) /\
  returns_label PermissiveJS.getRealType (Plain value) /\
  PermissiveJS.getRealType revoked_function_Proxy = Ok "function".
Proof.
  destruct (getRealType_Plain value) as (HS & HT & HP).
  destruct (classifiers_total value)
    as (_ & (ls & Es & Hs) & (lt & Et & Ht) & (lp & Ep & Hp)).
  split; [|split; [|split; [|split]]].
  - destruct x as [v|[|]]; [apply getType_coarse|simpl; auto 10..].
  - exists ls. rewrite HS, Es. split; [reflexivity|exact Hs].
  - exists lt. rewrite HT, Et. split; [reflexivity|exact Ht].
  - exists lp. rewrite HP, Ep. split; [reflexivity|exact Hp].
  - reflexivity.
Qed.

(** ** The TypeScript variant against the strict JavaScript variant *)

(** C9.  The TypeScript variant and the strict JavaScript variant compute
    the same functions: on every input [getRealType], [getTypesOfItems],
    [allItemsHaveTheSameType], [everyItemHasAUniqueRealType] and
    [countRealTypes] return the same result or throw the same error (and
    so do [getRealTypesOfItems] and [areEqual]). *)
Theorem TS_equals_Strict (value : Value) :
  TS.getRealType value = Strict.getRealType value /\
  TS.getTypesOfItems value = Strict.getTypesOfItems value /\
  TS.allItemsHaveTheSameType value = Strict.allItemsHaveTheSameType value /\
  TS.everyItemHasAUniqueRealType value =
    Strict.everyItemHasAUniqueRealType value /\
  TS.countRealTypes value = Strict.countRealTypes value /\
  TS.getRealTypesOfItems value = Strict.getRealTypesOfItems value /\
  (forall other, TS.areEqual value other = Strict.areEqual value other).
Proof.
  (* once the annotations are erased the two files hold the same code *)
  repeat split; reflexivity.
Qed.

(** ** The precedence chain *)

(** C2, counterexample.  In the permissive variant a [Map] instance is an
    ["object"], where step 7 of the chain says ["map"]. *)
Lemma getRealType_permissive_Map :
  instanceof new_Map CMap = true /\
  refinedClassifier new_Map = "map" /\
  Permissive.getRealType new_Map = "object" /\
  Permissive.getRealType new_Map <> refinedClassifier new_Map.
Proof.
  repeat split. discriminate.
Qed.

(** C2, amended.  In the strict variants [getRealType] follows the ordered
    precedence chain on every value: after the numeric step, null maps to
    ["null"], arrays to ["array"], then instances of Date, RegExp, Set, Map,
    Error, ArrayBuffer, DataView and Promise to their labels, and a value
    matching no step maps to its coarse label.  The permissive variant
    applies the chain up to Set only, and only to values whose coarse label
    is ["object"]; every other value maps to its coarse label. *)
Theorem getRealType_precedence_chain (value : Value) :
  Strict.getRealType value = refinedClassifier value /\
  TS.getRealType value = refinedClassifier value /\
  Permissive.getRealType value = refinedClassifier_permissive value.
Proof.
  unfold refinedClassifier, refinedClassifier_permissive, first_match.
  unfold Strict.getRealType, TS.getRealType, Permissive.getRealType.
  destruct value as [| | |[]| | | | |r [|] c]; simpl; repeat split;
    split_ifs; reflexivity.
Qed.

(** ** The equality of the test harness *)

(** C10, at a failing input.  In the strict variants [areEqual] is not
    symmetric: [every] skips the empty slot of [[ , ]], so
    [areEqual([ , ], [5])] is [true], while [areEqual([5], [ , ])] compares
    [5] with [undefined] and is [false].  The permissive variant reads the
    slot as [undefined] on both sides and answers [false] twice. *)
Theorem areEqual_hole_not_symmetric :
  Strict.areEqual one_hole one_five = true /\
  Strict.areEqual one_five one_hole = false /\
  TS.areEqual one_hole one_five = true /\
  TS.areEqual one_five one_hole = false /\
  Permissive.areEqual one_hole one_five = false /\
  Permissive.areEqual one_five one_hole = false.
Proof. repeat split. Qed.

(** Induction on values through the slots of arrays. *)
Section ValueInduction.
Variable P : Value -> Prop.

Definition slot_holds (s : Slot) : Prop :=
  match s with
  | Some v => P v
  | None => True
  end.

Hypothesis not_array : forall v, isArray v = false -> P v.
Hypothesis array :
  forall r c slots, Forall slot_holds slots -> P (VArray r c slots).

Fixpoint Value_nested_ind (v : Value) : P v :=
  match v with
  | VArray r c slots =>
      array r c
        ((fix all (l : list Slot) : Forall slot_holds l :=
            match l with
            | [] => Forall_nil _
            | s :: l' =>
                Forall_cons s
                  (match s return slot_holds s with
                   | Some v' => Value_nested_ind v'
                   | None => I
                   end)
                  (all l')
            end) slots)
  | VUndefined => not_array VUndefined eq_refl
  | VNull => not_array VNull eq_refl
  | VBoolean b => not_array (VBoolean b) eq_refl
  | VNumber x => not_array (VNumber x) eq_refl
  | VBigInt z => not_array (VBigInt z) eq_refl
  | VString s => not_array (VString s) eq_refl
  | VSymbol id => not_array (VSymbol id) eq_refl
  | VObject r callable c => not_array (VObject r callable c) eq_refl
  end.
End ValueInduction.

Lemma SFcompare_antisym (x y : spec_float) :
  SFcompare y x = option_map CompOpp (SFcompare x y).
Proof.
  destruct x as [s|s| |s m e], y as [s'|s'| |s' m' e']; simpl;
    try reflexivity; try (destruct s; reflexivity);
    try (destruct s'; reflexivity);
    try (destruct s, s'; reflexivity).
  rewrite (Z.compare_antisym e e'), !Pos.compare_cont_spec.
  rewrite (Pos.compare_antisym m m'). simpl.
  destruct s, s'; simpl; try reflexivity;
    destruct (e ?= e')%Z; simpl; try reflexivity;
    destruct (m ?= m')%positive; reflexivity.
Qed.

Lemma SFeqb_sym (x y : spec_float) : SFeqb x y = SFeqb y x.
Proof.
  unfold SFeqb. rewrite (SFcompare_antisym x y).
  destruct (SFcompare x y) as [[]|]; reflexivity.
Qed.

Lemma strict_eq_sym (a b : Value) : strict_eq a b = strict_eq b a.
Proof.
  destruct a, b; simpl; try reflexivity;
    auto using Nat.eqb_sym, Z.eqb_sym, String.eqb_sym, SFeqb_sym.
  destruct b, b0; reflexivity.
Qed.

Lemma index_app (r : nat) (c : list Class) (pre : list Slot) (t : Slot)
      (rb : list Slot) :
  index (VArray r c (pre ++ t :: rb)) (List.length pre) = read t.
Proof.
  unfold index. simpl. rewrite app_nth2, Nat.sub_diag; [reflexivity|lia].
Qed.

Lemma all2_sym (f : Value -> Value -> bool) (sa sb : list Slot) :
  (forall s t, In s sa -> In t sb -> f (read s) (read t) = f (read t) (read s)) ->
  all2 f sa sb = all2 f sb sa.
Proof.
  revert sb. induction sa as [|s ra IH]; intros [|t rb] H; simpl;
    try reflexivity.
  rewrite H by (simpl; auto). rewrite IH; [reflexivity|].
  intros s' t' Hs Ht. apply H; simpl; auto.
Qed.

Lemma all_from_all2 (f : Value -> Value -> bool) (r : nat) (c : list Class)
      (rest pre sb : list Slot) :
  List.length rest = List.length sb ->
  all_from f rest (VArray r c (pre ++ sb)) (List.length pre) = all2 f rest sb.
Proof.
  revert pre sb. induction rest as [|s ra IH]; intros pre [|t rb] Hlen;
    simpl in *; try reflexivity; try discriminate.
  rewrite index_app. f_equal.
  replace (pre ++ t :: rb) with ((pre ++ [t]) ++ rb)
    by (rewrite <- app_assoc; reflexivity).
  replace (S (List.length pre)) with (List.length (pre ++ [t]))
    by (rewrite length_app; simpl; lia).
  apply IH. lia.
Qed.

Lemma every_from_no_hole (f : Value -> Value -> bool) (rest : list Slot)
      (b : Value) (i : nat) :
  no_hole rest = true -> every_from f rest b i = all_from f rest b i.
Proof.
  revert i. induction rest as [|[v|] ra IH]; intros i; simpl;
    try reflexivity; try discriminate.
  intros H. now rewrite IH.
Qed.

Lemma permissive_compareArrays_loop (r : nat) (c : list Class)
      (sa : list Slot) (b : Value) :
  Permissive.compareArrays (VArray r c sa) b =
  Nat.eqb (List.length sa) (length_of b) && all_from Permissive.areEqual sa b 0.
Proof.
  cbn [Permissive.compareArrays].
  destruct (Nat.eqb (List.length sa) (length_of b)); simpl negb; cbv iota;
    [|reflexivity].
  simpl andb. generalize 0 as i. induction sa as [|[ai|] rest IH]; intros i.
  - reflexivity.
  - cbn [all_from read]. rewrite <- IH. unfold Permissive.areEqual.
    destruct (isArray ai && isArray (index b i)).
    + destruct (Permissive.compareArrays ai (index b i)); reflexivity.
    + destruct (strict_eq ai (index b i)); reflexivity.
  - cbn [all_from read].
    change (Permissive.areEqual VUndefined (index b i))
      with (strict_eq VUndefined (index b i)).
    rewrite <- IH.
    destruct (strict_eq VUndefined (index b i)); reflexivity.
Qed.

Lemma permissive_compareArrays_all2 (r r' : nat) (c c' : list Class)
      (sa sb : list Slot) :
  Permissive.compareArrays (VArray r c sa) (VArray r' c' sb) =
  Nat.eqb (List.length sa) (List.length sb) && all2 Permissive.areEqual sa sb.
Proof.
  rewrite permissive_compareArrays_loop. unfold length_of. simpl slots_of.
  destruct (Nat.eqb_spec (List.length sa) (List.length sb)) as [Hlen|];
    [|reflexivity].
  simpl. apply (all_from_all2 Permissive.areEqual r' c' sa [] sb Hlen).
Qed.

Lemma permissive_areEqual_not_array (a b : Value) :
  isArray a && isArray b = false -> Permissive.areEqual a b = strict_eq a b.
Proof. unfold Permissive.areEqual. now intros ->. Qed.

(** In the permissive variant [areEqual] is symmetric on all values. *)
Lemma permissive_areEqual_sym (a b : Value) :
  Permissive.areEqual a b = Permissive.areEqual b a.
Proof.
  revert b. induction a as [a Ha|r c sa IH] using Value_nested_ind; intros b.
  - rewrite !permissive_areEqual_not_array, strict_eq_sym;
      rewrite ?Ha, ?andb_false_r; reflexivity.
  - destruct b as [| | | | | | |r' c' sb|]; try
      (rewrite !permissive_areEqual_not_array by reflexivity;
       apply strict_eq_sym).
    unfold Permissive.areEqual. simpl isArray. simpl andb. cbv iota.
    rewrite !permissive_compareArrays_all2, Nat.eqb_sym. f_equal.
    apply all2_sym. intros [v|] t Hs _; simpl read.
    + rewrite Forall_forall in IH. apply (IH _ Hs).
    + rewrite !permissive_areEqual_not_array, strict_eq_sym;
        rewrite ?andb_false_r; reflexivity.
Qed.

Lemma dense_no_hole (r : nat) (c : list Class) (slots : list Slot) :
  dense (VArray r c slots) = true -> no_hole slots = true.
Proof.
  simpl. unfold no_hole. rewrite !forallb_forall.
  intros H [v|] Hs; [reflexivity|]. exact (H _ Hs).
Qed.

Lemma strict_areEqual_not_array (a b : Value) :
  isArray a && isArray b = false -> Strict.areEqual a b = strict_eq a b.
Proof.
  destruct a, b; try discriminate; intros _; cbn [Strict.areEqual];
    match goal with
    | |- (if ?e then _ else _) = _ => destruct e; reflexivity
    end.
Qed.

Lemma strict_areEqual_array (r r' : nat) (c c' : list Class)
      (sa sb : list Slot) :
  Strict.areEqual (VArray r c sa) (VArray r' c' sb) =
  strict_eq (VArray r c sa) (VArray r' c' sb)
  || Nat.eqb (List.length sa) (List.length sb)
     && every_from Strict.areEqual sa (VArray r' c' sb) 0.
Proof.
  cbn [Strict.areEqual].
  destruct (strict_eq (VArray r c sa) (VArray r' c' sb)); [reflexivity|].
  destruct (Nat.eqb (List.length sa) (List.length sb)); [|reflexivity].
  simpl orb. simpl andb. generalize 0 as i.
  induction sa as [|[v|] rest IH]; intros i.
  - reflexivity.
  - cbn [every_from]. rewrite <- IH.
    destruct (Strict.areEqual v (index (VArray r' c' sb) i)); reflexivity.
  - cbn [every_from]. apply IH.
Qed.

(** In the strict variants [areEqual] is symmetric on arrays without
    holes. *)
Lemma strict_areEqual_sym_dense (a b : Value) :
  dense a = true -> dense b = true ->
  Strict.areEqual a b = Strict.areEqual b a.
Proof.
  revert b. induction a as [a Ha|r c sa IH] using Value_nested_ind;
    intros b Hda Hdb.
  - rewrite !strict_areEqual_not_array, strict_eq_sym;
      rewrite ?Ha, ?andb_false_r; reflexivity.
  - destruct b as [| | | | | | |r' c' sb|]; try
      (rewrite !strict_areEqual_not_array by reflexivity;
       apply strict_eq_sym).
    rewrite !strict_areEqual_array.
    rewrite (strict_eq_sym (VArray r c sa)), (Nat.eqb_sym (List.length sa)).
    f_equal.
    destruct (Nat.eqb_spec (List.length sb) (List.length sa)) as [Hlen|];
      [|reflexivity].
    simpl andb.
    rewrite !every_from_no_hole by (eapply dense_no_hole; eassumption).
    pose proof (all_from_all2 Strict.areEqual r' c' sa [] sb (eq_sym Hlen))
      as Hab.
    pose proof (all_from_all2 Strict.areEqual r c sb [] sa Hlen) as Hba.
    simpl in Hab, Hba. rewrite Hab, Hba.
    apply all2_sym. intros [v|] [w|] Hs Ht; simpl read.
    + rewrite Forall_forall in IH. apply (IH _ Hs).
      * simpl in Hda. rewrite forallb_forall in Hda. exact (Hda _ Hs).
      * simpl in Hdb. rewrite forallb_forall in Hdb. exact (Hdb _ Ht).
    + apply dense_no_hole in Hdb. unfold no_hole in Hdb.
      rewrite forallb_forall in Hdb. discriminate (Hdb _ Ht).
    + apply dense_no_hole in Hda. unfold no_hole in Hda.
      rewrite forallb_forall in Hda. discriminate (Hda _ Hs).
    + reflexivity.
Qed.

(** * Further properties *)

(** ** A frequency count is determined by its labels *)

Lemma string_ltb_irrefl (s : string) : (s <? s)%string = false.
Proof. unfold String.ltb. now rewrite string_compare_refl. Qed.

Lemma string_ltb_asym (s t : string) :
  (s <? t)%string = true -> (t <? s)%string = true -> False.
Proof.
  unfold String.ltb.
  destruct (String.compare s t) eqn:Est; try discriminate.
  destruct (String.compare t s) eqn:Ets; try discriminate.
  pose proof (string_compare_lt_trans _ _ _ Est Ets) as H.
  rewrite string_compare_refl in H. discriminate.
Qed.

Lemma sorted_by_label_unique (r1 r2 : Entries) :
  sorted_by_label r1 -> sorted_by_label r2 ->
  (forall e, In e r1 <-> In e r2) -> r1 = r2.
Proof.
  unfold sorted_by_label. intros H1. revert r2.
  induction H1 as [|a1 r1 Hs1 IH Ha1]; intros r2 H2 Hsame.
  - destruct r2 as [|a2 r2]; [reflexivity|].
    exfalso. apply (Hsame a2). now left.
  - destruct H2 as [|a2 r2 Hs2 Ha2].
    + exfalso. apply (Hsame a1). now left.
    + rewrite Forall_forall in Ha1, Ha2.
      assert (Heq : a1 = a2).
      { destruct (proj1 (Hsame a1) (or_introl eq_refl)) as [E|Hin1]; [auto|].
        destruct (proj2 (Hsame a2) (or_introl eq_refl)) as [E|Hin2]; [auto|].
        exfalso. exact (string_ltb_asym _ _ (Ha1 _ Hin2) (Ha2 _ Hin1)). }
      subst a2. f_equal. apply IH; [exact Hs2|].
      intros e. split; intros He.
      * destruct (proj1 (Hsame e) (or_intror He)) as [E|Hin]; [|exact Hin].
        subst e. specialize (Ha1 _ He). now rewrite string_ltb_irrefl in Ha1.
      * destruct (proj2 (Hsame e) (or_intror He)) as [E|Hin]; [|exact Hin].
        subst e. specialize (Ha2 _ He). now rewrite string_ltb_irrefl in Ha2.
Qed.

Lemma frequency_count_In (labels : list string) (res : Entries)
      (k : string) (c : nat) :
  frequency_count labels res ->
  In (k, c) res <-> In k labels /\ c = count_occ string_dec labels k.
Proof.
  intros [Hnd Hkeys Hcount _ _]. split.
  - intros Hin. split; [|now apply Hcount].
    apply Hkeys. change (In (fst (k, c)) (keys res)). now apply in_map.
  - intros [Hk ->]. apply Hkeys, in_map_iff in Hk.
    destruct Hk as ([k' c'] & Heq & Hin). simpl in Heq. subst k'.
    now rewrite <- (Hcount _ _ Hin).
Qed.

Lemma frequency_count_unique (l1 l2 : list string) (r1 r2 : Entries) :
  Permutation l1 l2 ->
  frequency_count l1 r1 -> frequency_count l2 r2 -> r1 = r2.
Proof.
  intros Hperm H1 H2.
  apply sorted_by_label_unique; [apply H1|apply H2|].
  intros [k c].
  rewrite (frequency_count_In k c H1), (frequency_count_In k c H2).
  rewrite (proj1 (Permutation_count_occ string_dec l1 l2) Hperm k).
  split; intros [Hin Hc]; (split; [|exact Hc]).
  - eapply Permutation_in; eassumption.
  - eapply Permutation_in; [symmetry|]; eassumption.
Qed.

(** X1.  [countRealTypes] does not depend on the order of the elements:
    two arrays whose elements are a permutation of one another get the
    same pairs, in the same order.  This holds in the three variants (the
    second [countRealTypes] test of each file checks one instance). *)
Theorem countRealTypes_permutation (a b : Value) :
  isArray a = true -> isArray b = true ->
  Permutation (items a) (items b) ->
  Strict.countRealTypes a = Strict.countRealTypes b /\
  TS.countRealTypes a = TS.countRealTypes b /\
  Permissive.countRealTypes a = Permissive.countRealTypes b.
Proof.
  intros Ha Hb Hperm.
  unfold Strict.countRealTypes, TS.countRealTypes, Permissive.countRealTypes.
  rewrite Ha, Hb. simpl negb. cbv iota zeta.
  repeat split; f_equal.
  - eapply frequency_count_unique; [|apply strict_count|apply strict_count].
    now apply Permutation_map.
  - eapply frequency_count_unique; [|apply strict_count|apply strict_count].
    now apply Permutation_map.
  - eapply frequency_count_unique;
      [|apply permissive_count|apply permissive_count].
    now apply Permutation_map.
Qed.

Lemma five_items_permutation :
  Permutation (items five_items) (items five_items_reordered).
Proof.
  apply Permutation_trans
    with (VObject 21 false []
            :: [VBoolean true; VNull; VBoolean true; VBoolean false]).
  - apply Permutation_sym.
    exact (Permutation_cons_append
             [VBoolean true; VNull; VBoolean true; VBoolean false]
             (VObject 21 false [])).
  - apply perm_skip. apply perm_swap.
Defined.

Lemma countRealTypes_permutation_witness :
  isArray five_items = true /\ isArray five_items_reordered = true /\
  Permutation (items five_items) (items five_items_reordered) /\
  Strict.countRealTypes five_items =
    Strict.countRealTypes five_items_reordered /\
  TS.countRealTypes five_items = TS.countRealTypes five_items_reordered /\
  Permissive.countRealTypes five_items =
    Permissive.countRealTypes five_items_reordered.
Proof.
  split; [reflexivity|]. split; [reflexivity|].
  split; [exact five_items_permutation|].
  apply (countRealTypes_permutation five_items five_items_reordered);
    [reflexivity|reflexivity|exact five_items_permutation].
Defined.

(** ** The checks do not depend on the order either *)

Lemma uniform_pairwise (arr : Value) :
  uniform arr <->
  (forall x y, In x (items arr) -> In y (items arr) -> getType x = getType y).
Proof.
  unfold uniform. rewrite Forall_forall. split.
  - intros [Hle|Hall] x y Hx Hy.
    + rewrite <- length_items in Hle.
      destruct (items arr) as [|z [|z' l]]; simpl in *; try lia; try tauto.
      destruct Hx as [<-|[]], Hy as [<-|[]]. reflexivity.
    + now rewrite (Hall _ Hx), (Hall _ Hy).
  - intros H.
    destruct (Nat.le_gt_cases (length_of arr) 1) as [Hle|Hgt]; [now left|].
    right. intros x Hx. apply H; [exact Hx|].
    unfold index, items. change VUndefined with (read None).
    rewrite <- map_nth with (f := read) (d := @None Value).
    apply nth_In. rewrite length_map. unfold length_of in Hgt. lia.
Qed.

Lemma uniform_permutation (a b : Value) :
  Permutation (items a) (items b) -> uniform a -> uniform b.
Proof.
  rewrite !uniform_pairwise. intros Hperm H x y Hx Hy.
  apply H; eapply Permutation_in; try eassumption; now symmetry.
Qed.

Lemma bool_eq_iff (b c : bool) (P : Prop) :
  (b = true <-> P) -> (c = true <-> P) -> b = c.
Proof. destruct b, c; intuition congruence. Qed.

Lemma checks_uniformity_permutation
      (f : Value -> Result bool) (a b : Value) :
  checks_uniformity f a -> checks_uniformity f b ->
  Permutation (items a) (items b) -> f a = f b.
Proof.
  intros (x & -> & Hx) (y & -> & Hy) Hperm. f_equal.
  apply bool_eq_iff with (P := uniform a); [exact Hx|].
  rewrite Hy. split; apply uniform_permutation; [now symmetry|exact Hperm].
Qed.

(** The three variants check uniformity, by the argument of C4. *)
Lemma variants_check_uniformity (arr : Value) :
  isArray arr = true ->
  checks_uniformity Strict.allItemsHaveTheSameType arr /\
  checks_uniformity TS.allItemsHaveTheSameType arr /\
  checks_uniformity Permissive.allItemsHaveTheSameType arr.
Proof.
  intros Harr. unfold checks_uniformity.
  unfold Strict.allItemsHaveTheSameType, TS.allItemsHaveTheSameType,
    Permissive.allItemsHaveTheSameType.
  rewrite Harr. simpl negb. cbv iota zeta.
  assert (Hstrict : exists b,
    (if (length_of arr <=? 1)%nat then Ok true
     else Ok (same_type_loop arr (typeof (index arr 0)) 1 (length_of arr - 1)))
    = Ok b /\ (b = true <-> uniform arr)).
  { destruct (Nat.leb_spec (length_of arr) 1) as [Hle|Hgt].
    - exists true. split; [reflexivity|]. unfold uniform. tauto.
    - eexists. split; [reflexivity|]. apply same_type_loop_uniform. lia. }
  repeat split; try exact Hstrict.
  destruct (Nat.eqb_spec (length_of arr) 0) as [Hz|Hnz].
  - exists true. split; [reflexivity|]. unfold uniform. split; [|reflexivity].
    intros _. left. lia.
  - eexists. split; [reflexivity|]. apply same_type_loop_uniform. lia.
Qed.

(** X2.  [allItemsHaveTheSameType] and [everyItemHasAUniqueRealType] do
    not depend on the order of the elements: on two arrays whose elements
    are a permutation of one another each returns the same boolean, though
    the first compares every element with [arr[0]] and the second stops at
    the first repeated label.  This holds in the three variants. *)
Theorem checks_permutation (a b : Value) :
  isArray a = true -> isArray b = true ->
  Permutation (items a) (items b) ->
  Strict.allItemsHaveTheSameType a = Strict.allItemsHaveTheSameType b /\
  TS.allItemsHaveTheSameType a = TS.allItemsHaveTheSameType b /\
  Permissive.allItemsHaveTheSameType a =
    Permissive.allItemsHaveTheSameType b /\
  Strict.everyItemHasAUniqueRealType a =
    Strict.everyItemHasAUniqueRealType b /\
  TS.everyItemHasAUniqueRealType a = TS.everyItemHasAUniqueRealType b /\
  Permissive.everyItemHasAUniqueRealType a =
    Permissive.everyItemHasAUniqueRealType b.
Proof.
  intros Ha Hb Hperm.
  destruct (variants_check_uniformity a Ha) as (Sa & Ta & Pa).
  destruct (variants_check_uniformity b Hb) as (Sb & Tb & Pb).
  split; [now apply checks_uniformity_permutation|].
  split; [now apply checks_uniformity_permutation|].
  split; [now apply checks_uniformity_permutation|].
  unfold Strict.everyItemHasAUniqueRealType, TS.everyItemHasAUniqueRealType,
    Permissive.everyItemHasAUniqueRealType.
  rewrite Ha, Hb. simpl negb. cbv iota.
  repeat split; f_equal;
    match goal with
    | |- unique_loop ?g _ _ = _ =>
        apply bool_eq_iff with (P := NoDup (map g (items a)));
          [apply unique_loop_NoDup|];
          rewrite unique_loop_NoDup; split; apply Permutation_NoDup;
          apply Permutation_map; [now symmetry|exact Hperm]
    end.
Qed.

Lemma checks_permutation_witness :
  isArray five_items = true /\ isArray five_items_reordered = true /\
  Permutation (items five_items) (items five_items_reordered) /\
  Strict.allItemsHaveTheSameType five_items =
    Strict.allItemsHaveTheSameType five_items_reordered /\
  TS.allItemsHaveTheSameType five_items =
    TS.allItemsHaveTheSameType five_items_reordered /\
  Permissive.allItemsHaveTheSameType five_items =
    Permissive.allItemsHaveTheSameType five_items_reordered /\
  Strict.everyItemHasAUniqueRealType five_items =
    Strict.everyItemHasAUniqueRealType five_items_reordered /\
  TS.everyItemHasAUniqueRealType five_items =
    TS.everyItemHasAUniqueRealType five_items_reordered /\
  Permissive.everyItemHasAUniqueRealType five_items =
    Permissive.everyItemHasAUniqueRealType five_items_reordered.
Proof.
  split; [reflexivity|]. split; [reflexivity|].
  split; [exact five_items_permutation|].
  apply (checks_permutation five_items five_items_reordered);
    [reflexivity|reflexivity|exact five_items_permutation].
Defined.

(** ** How many labels there are *)

Lemma strict_getRealType_range (value : Value) :
  In (Strict.getRealType value) all_labels.
Proof.
  destruct value as [| | |[]| | | | |r [|] c];
    unfold Strict.getRealType; simpl; split_ifs; simpl; auto 30.
Qed.

Lemma unique_loop_bound (g : Value -> string) (labels : list string)
      (l : list Value) :
  (forall v, In (g v) labels) ->
  unique_loop g l [] = true -> List.length l <= List.length labels.
Proof.
  intros Hrange Hu. apply unique_loop_NoDup in Hu.
  rewrite <- (length_map g l). apply NoDup_incl_length; [exact Hu|].
  intros k Hk. apply in_map_iff in Hk. destruct Hk as (v & <- & _).
  apply Hrange.
Qed.

Lemma Ok_inj {A : Type} (x y : A) : Ok x = Ok y -> x = y.
Proof. now inversion 1. Qed.

(** X3.  In the strict variants [everyItemHasAUniqueRealType] returns
    [true] on no array of more than 20 elements: [getRealType] has 20
    labels (8 coarse, 12 refinements).  An array of 20 values reaches the
    bound. *)
Theorem strict_unique_at_most_20 (arr : Value) :
  Strict.everyItemHasAUniqueRealType arr = Ok true ->
  TS.everyItemHasAUniqueRealType arr = Ok true /\ length_of arr <= 20.
Proof.
  intros H. split; [exact H|].
  unfold Strict.everyItemHasAUniqueRealType in H.
  destruct (isArray arr); simpl in H; [|discriminate].
  apply Ok_inj in H. rewrite <- length_items.
  exact (unique_loop_bound Strict.getRealType all_labels (items arr)
           strict_getRealType_range H).
Qed.

Lemma strict_unique_at_most_20_witness :
  Strict.everyItemHasAUniqueRealType twenty_types = Ok true /\
  length_of twenty_types = 20 /\
  TS.everyItemHasAUniqueRealType twenty_types = Ok true /\
  length_of twenty_types <= 20.
Proof.
  split; [reflexivity|]. split; [reflexivity|].
  apply (strict_unique_at_most_20 twenty_types). reflexivity.
Defined.

(** X4.  In the permissive variant [everyItemHasAUniqueRealType] returns
    [true] on no array of more than 15 elements, its [getRealType] having
    15 labels; in particular not on the 19 values of the [knownTypes] of
    the strict files.  An array of 15 values reaches the bound. *)
Theorem permissive_unique_at_most_15 (arr : Value) :
  Permissive.everyItemHasAUniqueRealType arr = Ok true ->
  isArray arr = true /\ length_of arr <= 15.
Proof.
  intros H. unfold Permissive.everyItemHasAUniqueRealType in H.
  destruct (isArray arr); simpl in H; [|discriminate].
  split; [reflexivity|].
  apply Ok_inj in H. rewrite <- length_items.
  exact (unique_loop_bound Permissive.getRealType permissive_labels
           (items arr) permissive_getRealType_range H).
Qed.

Lemma permissive_unique_at_most_15_witness :
  Permissive.everyItemHasAUniqueRealType fifteen_types = Ok true /\
  length_of fifteen_types = 15 /\
  isArray fifteen_types = true /\ length_of fifteen_types <= 15.
Proof.
  split; [reflexivity|]. split; [reflexivity|].
  apply (permissive_unique_at_most_15 fifteen_types). reflexivity.
Defined.

(** ** Bounds on the frequency count *)

Lemma frequency_count_bounds (labels range : list string) (res : Entries) :
  frequency_count labels res -> incl labels range ->
  Forall (fun e => 1 <= snd e <= List.length labels) res /\
  List.length res <= List.length labels /\
  List.length res <= List.length range /\
  (res = [] <-> List.length labels = 0).
Proof.
  intros Hfc Hrange. pose proof Hfc as [Hnd Hkeys Hcount _ Hsum].
  assert (Hincl : incl (keys res) labels) by (intros k; apply Hkeys).
  split; [|split; [|split]].
  - apply Forall_forall. intros [k c] Hin. simpl.
    apply (frequency_count_In k c Hfc) in Hin. destruct Hin as [Hk ->].
    split; [|apply count_occ_bound].
    apply (count_occ_In string_dec) in Hk. lia.
  - rewrite <- (length_map fst res). now apply NoDup_incl_length.
  - rewrite <- (length_map fst res). apply NoDup_incl_length; [exact Hnd|].
    intros k Hk. auto.
  - split.
    + intros ->. now rewrite <- Hsum.
    + intros Hlen. apply length_zero_iff_nil in Hlen. subst labels.
      destruct res as [|e res]; [reflexivity|].
      exfalso. apply (Hincl (fst e)). now left.
Qed.

Lemma map_getRealType_range (g : Value -> string) (range : list string)
      (l : list Value) :
  (forall v, In (g v) range) -> incl (map g l) range.
Proof.
  intros H k Hk. apply in_map_iff in Hk. destruct Hk as (v & <- & _).
  apply H.
Qed.

(** X5.  On every array [countRealTypes] returns no pair with a zero
    count and no count above [arr.length]; it returns at most as many
    pairs as the array has elements and at most 20 of them (15 in the
    permissive variant); and it returns no pair at all exactly when the
    array is empty. *)
Theorem countRealTypes_bounds (arr : Value) :
  isArray arr = true ->
  count_bounds Strict.countRealTypes 20 arr /\
  count_bounds TS.countRealTypes 20 arr /\
  count_bounds Permissive.countRealTypes 15 arr.
Proof.
  intros Harr. unfold count_bounds.
  unfold Strict.countRealTypes, TS.countRealTypes, Permissive.countRealTypes.
  rewrite Harr. simpl negb. cbv iota zeta.
  pose proof (frequency_count_bounds
                (strict_count Strict.getRealType (items arr))
                (map_getRealType_range Strict.getRealType all_labels
                   (items arr) strict_getRealType_range)) as HS.
  pose proof (frequency_count_bounds
                (permissive_count (items arr))
                (map_getRealType_range Permissive.getRealType
                   permissive_labels (items arr)
                   permissive_getRealType_range)) as HP.
  rewrite length_map, length_items in HS, HP.
  repeat split; eexists; (split; [reflexivity|]);
    first [exact HS | exact HP].
Qed.

Lemma countRealTypes_bounds_witness :
  isArray five_items = true /\
  count_bounds Strict.countRealTypes 20 five_items /\
  count_bounds TS.countRealTypes 20 five_items /\
  count_bounds Permissive.countRealTypes 15 five_items.
Proof.
  split; [reflexivity|].
  apply (countRealTypes_bounds five_items). reflexivity.
Defined.

(** ** The listing against the frequency count *)

Lemma frequency_count_get (labels : list string) (res : Entries)
      (k : string) :
  frequency_count labels res -> map_get res k = count_occ string_dec labels k.
Proof.
  intros Hfc. destruct (in_dec string_dec k labels) as [Hin|Hout].
  - assert (Hkc : In (k, count_occ string_dec labels k) res)
      by (apply (frequency_count_In _ _ Hfc); auto).
    apply map_get_In; [apply Hfc|exact Hkc].
  - rewrite (proj1 (count_occ_not_In string_dec labels k) Hout).
    apply map_get_absent. intros Hk. apply Hout. now apply Hfc.
Qed.

Lemma count_items_listing (g : Value -> string) (slots : list Slot)
      (k : string) :
  g VUndefined = "undefined" ->
  count_occ string_dec (map g (map read slots)) k =
  count_occ string_dec (assigned (array_map g slots)) k +
  (if String.eqb k "undefined" then holes (array_map g slots) else 0).
Proof.
  intros Hund. induction slots as [|[v|] rest IH]; simpl.
  - now destruct (String.eqb k "undefined").
  - rewrite IH. destruct (string_dec (g v) k); lia.
  - rewrite IH, Hund.
    destruct (string_dec "undefined" k) as [<-|Hne].
    + simpl. lia.
    + destruct (String.eqb_spec k "undefined"); [congruence|lia].
Qed.

(** X6.  [getRealTypesOfItems] and [countRealTypes] see an empty slot
    differently.  On an array the listing has the length of the array and
    keeps the empty slots empty ([map] skips them), while the count reads
    each one as [undefined]: the count of a label is its number of
    occurrences in the listing, plus the number of empty slots for
    ["undefined"].  On an array without empty slots the count is the
    frequency count of the listing.  This holds in the three variants. *)
Theorem countRealTypes_of_listing (arr : Value) :
  isArray arr = true ->
  count_of_listing Strict.getRealTypesOfItems Strict.countRealTypes arr /\
  count_of_listing TS.getRealTypesOfItems TS.countRealTypes arr /\
  count_of_listing Permissive.getRealTypesOfItems
    Permissive.countRealTypes arr.
Proof.
  intros Harr. unfold count_of_listing.
  unfold Strict.getRealTypesOfItems, TS.getRealTypesOfItems,
    Permissive.getRealTypesOfItems,
    Strict.countRealTypes, TS.countRealTypes, Permissive.countRealTypes.
  rewrite Harr. simpl negb. cbv iota zeta.
  repeat split; do 2 eexists; (split; [reflexivity|]);
    (split; [reflexivity|]);
    (split; [unfold array_map; rewrite length_map; reflexivity|]);
    intros label;
    first [ rewrite (frequency_count_get label
                       (strict_count Strict.getRealType (items arr)))
          | rewrite (frequency_count_get label
                       (strict_count TS.getRealType (items arr)))
          | rewrite (frequency_count_get label
                       (permissive_count (items arr))) ];
    unfold items; now apply count_items_listing.
Qed.

Lemma countRealTypes_of_listing_witness :
  isArray hole_and_undefined = true /\
  Strict.getRealTypesOfItems hole_and_undefined =
    Ok [None; Some "undefined"] /\
  Strict.countRealTypes hole_and_undefined = Ok [("undefined", 2)] /\
  count_of_listing Strict.getRealTypesOfItems Strict.countRealTypes
    hole_and_undefined /\
  count_of_listing TS.getRealTypesOfItems TS.countRealTypes
    hole_and_undefined /\
  count_of_listing Permissive.getRealTypesOfItems
    Permissive.countRealTypes hole_and_undefined.
Proof.
  split; [reflexivity|]. split; [reflexivity|]. split; [reflexivity|].
  apply (countRealTypes_of_listing hole_and_undefined). reflexivity.
Defined.

(** ** The permissive classifier against the strict one *)

(** X7.  The permissive [getRealType] is a coarsening of the strict one:
    on every value it returns the label of the strict variant or the
    coarse label of the value, and never ["map"], ["error"],
    ["arrayBuffer"], ["dataView"] or ["promise"]. *)
Theorem permissive_coarsens_strict (value : Value) :
  (Permissive.getRealType value = Strict.getRealType value \/
   Permissive.getRealType value = getType value) /\
  ~ In (Permissive.getRealType value) late_labels.
Proof.
  destruct value as [| | |[]| | | | |r [|] c];
    unfold Permissive.getRealType, Strict.getRealType; simpl;
    split_ifs; (split; [auto|]); simpl; intuition discriminate.
Qed.

(** X8.  In the permissive variant the refined label determines the coarse
    one: ["NaN"] and ["Infinity"] are numbers, ["null"], ["array"],
    ["date"], ["regexp"] and ["set"] are objects, and any other label is
    the coarse label itself.  So two values with the same refined label
    have the same [typeof].  In the strict variants they need not: a
    function whose prototype is [Date.prototype] is a ["date"], as a Date
    object is. *)
Theorem permissive_label_determines_type (value : Value) :
  getType value = coarse_of_permissive (Permissive.getRealType value) /\
  Strict.getRealType function_with_Date_prototype =
    Strict.getRealType new_Date /\
  getType function_with_Date_prototype <> getType new_Date.
Proof.
  split; [|split; [reflexivity|discriminate]].
  destruct value as [| | |[]| | | | |r [|] c];
    unfold Permissive.getRealType; simpl; split_ifs; reflexivity.
Qed.

(** X9.  [getRealType] refines the coarse label of numbers, objects and
    functions only (of numbers and objects only in the permissive
    variant): on a boolean, a string, a BigInt, a symbol or [undefined]
    it returns the [typeof] of the value. *)
Theorem getRealType_refines_only (value : Value) :
  (Strict.getRealType value = getType value \/
   In (getType value) ["number"; "object"; "function"]) /\
  (TS.getRealType value = getType value \/
   In (getType value) ["number"; "object"; "function"]) /\
  (Permissive.getRealType value = getType value \/
   In (getType value) ["number"; "object"]).
Proof.
  destruct value as [| | |[]| | | | |r [|] c];
    unfold Permissive.getRealType, Strict.getRealType, TS.getRealType;
    simpl; split_ifs; simpl; auto 10.
Qed.

(** ** Labels that name a shape *)

Lemma label_sound_variants (value : Value) :
  label_sound Strict.getRealType value /\
  label_sound Permissive.getRealType value.
Proof.
  unfold label_sound.
  destruct value as [| | |[]| | | | |r [|] c];
    unfold Permissive.getRealType, Strict.getRealType; simpl;
    split_ifs; repeat split; intros H;
    repeat match goal with
           | H : exists _, _ |- _ => destruct H as [? H]
           | H : _ /\ _ |- _ => destruct H as [? H]
           | H : VNumber _ = VNumber _ |- _ => inversion H; subst; clear H
           end;
    try discriminate; try reflexivity;
    try (eexists; reflexivity);
    try (eexists; split; reflexivity).
Qed.

(** X10.  The labels ["NaN"], ["Infinity"], ["number"], ["null"] and
    ["array"] tell the shape of the value: [getRealType] returns ["NaN"]
    on NaN only, ["Infinity"] on the two infinities only, ["number"] on
    finite numbers only, ["null"] on [null] only and ["array"] exactly on
    the values [Array.isArray] accepts, whatever their prototype.  This
    holds in the three variants. *)
Theorem getRealType_label_sound (value : Value) :
  label_sound Strict.getRealType value /\
  label_sound TS.getRealType value /\
  label_sound Permissive.getRealType value.
Proof.
  destruct (label_sound_variants value) as [HS HP].
  split; [exact HS|]. split; [exact HS|exact HP].
Qed.

(** ** The variants on arrays *)

(** X11.  On an array the permissive variant and the strict ones return
    the same coarse listing and the same uniformity answer: the variants
    part on non-arrays only, although the permissive file tests
    [arr.length === 0] where the strict ones test [arr.length <= 1]. *)
Theorem variants_agree_on_coarse_types (arr : Value) :
  isArray arr = true ->
  Permissive.getTypesOfItems arr = Strict.getTypesOfItems arr /\
  Permissive.allItemsHaveTheSameType arr =
    Strict.allItemsHaveTheSameType arr /\
  TS.getTypesOfItems arr = Strict.getTypesOfItems arr /\
  TS.allItemsHaveTheSameType arr = Strict.allItemsHaveTheSameType arr.
Proof.
  intros Harr.
  unfold Permissive.getTypesOfItems, Strict.getTypesOfItems,
    Permissive.allItemsHaveTheSameType, Strict.allItemsHaveTheSameType,
    TS.getTypesOfItems, TS.allItemsHaveTheSameType.
  rewrite Harr. simpl negb. cbv iota zeta.
  split; [reflexivity|]. split; [|split; reflexivity].
  destruct (length_of arr) as [|[|n]]; reflexivity.
Qed.

Lemma variants_agree_on_coarse_types_witness :
  isArray wrapped_string = true /\
  Permissive.getTypesOfItems wrapped_string =
    Strict.getTypesOfItems wrapped_string /\
  Permissive.allItemsHaveTheSameType wrapped_string =
    Strict.allItemsHaveTheSameType wrapped_string /\
  TS.getTypesOfItems wrapped_string = Strict.getTypesOfItems wrapped_string /\
  TS.allItemsHaveTheSameType wrapped_string =
    Strict.allItemsHaveTheSameType wrapped_string.
Proof.
  split; [reflexivity|].
  apply (variants_agree_on_coarse_types wrapped_string). reflexivity.
Defined.

Lemma unique_loop_ext (g h : Value -> string) (l : list Value)
      (types : list string) :
  (forall v, In v l -> g v = h v) ->
  unique_loop g l types = unique_loop h l types.
Proof.
  revert types. induction l as [|item rest IH]; intros types H; simpl;
    [reflexivity|].
  rewrite (H item) by (now left).
  destruct (set_has types (h item)); [reflexivity|].
  apply IH. intros v Hv. apply H. now right.
Qed.

Lemma array_map_ext (g h : Value -> string) (slots : list Slot) :
  (forall v, In v (map read slots) -> g v = h v) ->
  array_map g slots = array_map h slots.
Proof.
  intros H. unfold array_map. apply map_ext_in. intros [v|] Hs; simpl;
    [|reflexivity].
  f_equal. apply H. apply in_map_iff. now exists (Some v).
Qed.

(** X12.  On an array whose elements the two [getRealType] label alike,
    the permissive variant and the strict one return the same refined
    listing, the same uniqueness answer and the same frequency count: on
    these labels [sort()] without comparator orders the pairs as the
    comparator of the strict files does. *)
Theorem variants_agree_on_real_types (arr : Value) :
  isArray arr = true ->
  (forall item, In item (items arr) ->
     Permissive.getRealType item = Strict.getRealType item) ->
  Permissive.getRealTypesOfItems arr = Strict.getRealTypesOfItems arr /\
  Permissive.everyItemHasAUniqueRealType arr =
    Strict.everyItemHasAUniqueRealType arr /\
  Permissive.countRealTypes arr = Strict.countRealTypes arr.
Proof.
  intros Harr Hsame.
  unfold Permissive.getRealTypesOfItems, Strict.getRealTypesOfItems,
    Permissive.everyItemHasAUniqueRealType,
    Strict.everyItemHasAUniqueRealType,
    Permissive.countRealTypes, Strict.countRealTypes.
  rewrite Harr. simpl negb. cbv iota zeta.
  split; [|split]; f_equal.
  - now apply array_map_ext.
  - now apply unique_loop_ext.
  - eapply frequency_count_unique;
      [|apply permissive_count|apply strict_count].
    rewrite (map_ext_in _ _ _ Hsame). reflexivity.
Qed.

Lemma variants_agree_on_real_types_witness :
  isArray knownTypes_permissive = true /\
  Permissive.getRealTypesOfItems knownTypes_permissive =
    Strict.getRealTypesOfItems knownTypes_permissive /\
  Permissive.everyItemHasAUniqueRealType knownTypes_permissive =
    Strict.everyItemHasAUniqueRealType knownTypes_permissive /\
  Permissive.countRealTypes knownTypes_permissive =
    Strict.countRealTypes knownTypes_permissive.
Proof.
  split; [reflexivity|].
  apply (variants_agree_on_real_types knownTypes_permissive);
    [reflexivity|].
  intros item Hin. simpl in Hin.
  repeat (destruct Hin as [<-|Hin]; [reflexivity|]). destruct Hin.
Defined.

(** ** [areEqual] of a value with itself *)

Lemma SFeqb_refl (x : spec_float) : SFeqb x x = negb (number_isNaN x).
Proof.
  unfold SFeqb. destruct x as [s|s| |s m e]; simpl; try reflexivity.
  - now destruct s.
  - rewrite Z.compare_refl, Pos.compare_cont_refl. now destruct s.
Qed.

Lemma strict_eq_refl (a : Value) :
  strict_eq a a = negb (isNaN a).
Proof.
  destruct a; simpl; auto using Nat.eqb_refl, Z.eqb_refl, String.eqb_refl,
    SFeqb_refl, Bool.eqb_reflx.
Qed.

Lemma all2_diag (f : Value -> Value -> bool) (sa : list Slot) :
  all2 f sa sa = forallb (fun s => f (read s) (read s)) sa.
Proof.
  induction sa as [|s ra IH]; simpl; [reflexivity|]. now rewrite IH.
Qed.

Lemma permissive_areEqual_refl (a : Value) :
  Permissive.areEqual a a = negb (has_NaN a).
Proof.
  induction a as [a Ha|r c sa IH] using Value_nested_ind.
  - rewrite permissive_areEqual_not_array by (now rewrite Ha).
    rewrite strict_eq_refl. destruct a; try reflexivity; discriminate.
  - unfold Permissive.areEqual. simpl isArray. simpl andb. cbv iota.
    rewrite permissive_compareArrays_all2, Nat.eqb_refl, all2_diag.
    simpl. induction IH as [|[v|] rest Hv _ IHrest]; simpl.
    + reflexivity.
    + simpl in Hv. rewrite Hv, IHrest. now destruct (has_NaN v).
    + exact IHrest.
Qed.

(** X13.  Comparing a value with itself.  In the strict variants
    [areEqual(a, a)] is [false] for NaN only: an array is equal to itself
    by reference, whatever it holds.  In the permissive variant, which
    compares two arrays element by element even when they are one array,
    [areEqual(a, a)] is [false] exactly when [a] is NaN or an array with a
    NaN at some depth. *)
Theorem areEqual_with_itself (a : Value) :
  (Strict.areEqual a a = false <-> a = VNumber S754_nan) /\
  (TS.areEqual a a = false <-> a = VNumber S754_nan) /\
  Permissive.areEqual a a = negb (has_NaN a).
Proof.
  assert (HS : Strict.areEqual a a = false <-> a = VNumber S754_nan).
  { destruct a as [| | |x| | | |r c sa|r k c];
      try (rewrite strict_areEqual_not_array by reflexivity;
           rewrite strict_eq_refl; simpl; split; discriminate).
    - rewrite strict_areEqual_not_array by reflexivity.
      rewrite strict_eq_refl. simpl.
      destruct x; simpl; split; congruence.
    - rewrite strict_areEqual_array. simpl strict_eq.
      rewrite Nat.eqb_refl. simpl. split; discriminate. }
  split; [exact HS|]. split; [exact HS|apply permissive_areEqual_refl].
Qed.

(** ** The two [areEqual] against one another *)

Lemma all_from_every_from (f f' : Value -> Value -> bool)
      (rest : list Slot) (b : Value) (i : nat) :
  (forall v, In (Some v) rest -> forall y, f v y = true -> f' v y = true) ->
  all_from f rest b i = true -> every_from f' rest b i = true.
Proof.
  revert i. induction rest as [|[v|] ra IH]; intros i H; simpl;
    [reflexivity| |].
  - rewrite andb_true_iff. intros [Hv Hrest].
    rewrite (H v (or_introl eq_refl) _ Hv). simpl.
    apply IH; [|exact Hrest]. intros w Hw. apply H. now right.
  - rewrite andb_true_iff. intros [_ Hrest].
    apply IH; [|exact Hrest]. intros w Hw. apply H. now right.
Qed.

Lemma permissive_areEqual_strict (a b : Value) :
  Permissive.areEqual a b = true -> Strict.areEqual a b = true.
Proof.
  revert b. induction a as [a Ha|r c sa IH] using Value_nested_ind; intros b.
  - rewrite permissive_areEqual_not_array, strict_areEqual_not_array;
      rewrite ?Ha; auto.
  - destruct b as [| | | | | | |r' c' sb|]; try
      (rewrite permissive_areEqual_not_array, strict_areEqual_not_array
         by reflexivity; auto).
    unfold Permissive.areEqual. simpl isArray. simpl andb. cbv iota.
    rewrite permissive_compareArrays_all2, strict_areEqual_array.
    rewrite andb_true_iff. intros [Hlen Hall].
    rewrite Hlen. apply orb_true_iff. right. simpl andb.
    apply Nat.eqb_eq in Hlen.
    pose proof (all_from_all2 Permissive.areEqual r' c' sa [] sb Hlen) as E.
    simpl in E. rewrite <- E in Hall.
    revert Hall. apply all_from_every_from.
    rewrite Forall_forall in IH. intros v Hv y. exact (IH _ Hv y).
Qed.

(** X14.  Whatever the permissive [areEqual] accepts, the [areEqual] of
    the strict variants accepts too.  The converse fails: the strict one
    also accepts [[ , ]] against [[5]]. *)
Theorem permissive_areEqual_implies_strict (a b : Value) :
  Permissive.areEqual a b = true ->
  Strict.areEqual a b = true /\ TS.areEqual a b = true.
Proof.
  intros H. split; exact (permissive_areEqual_strict a b H).
Qed.

Lemma permissive_areEqual_implies_strict_witness :
  Permissive.areEqual nested nested_again = true /\
  Strict.areEqual nested nested_again = true /\
  TS.areEqual nested nested_again = true.
Proof.
  split; [reflexivity|].
  apply (permissive_areEqual_implies_strict nested nested_again).
  reflexivity.
Defined.

(** ** [areEqual] on arrays of primitives *)

Lemma all_from_flat (f : Value -> Value -> bool) (rest : list Slot)
      (b : Value) (i : nat) :
  (forall v y, isArray v = false -> f v y = strict_eq v y) ->
  flat_slots rest = true ->
  all_from f rest b i = all_from strict_eq rest b i.
Proof.
  intros Hf. revert i. induction rest as [|[v|] ra IH]; intros i; simpl;
    try reflexivity; try discriminate.
  rewrite andb_true_iff, negb_true_iff. intros [Hv Hrest].
  now rewrite (Hf v _ Hv), IH.
Qed.

Lemma flat_no_hole (slots : list Slot) :
  flat_slots slots = true -> no_hole slots = true.
Proof.
  unfold flat_slots, no_hole. rewrite !forallb_forall.
  intros H [v|] Hs; [reflexivity|]. exact (H _ Hs).
Qed.

(** X15.  On arrays of primitives, which the comment of [areEqual] names,
    the function is [===] element by element: if no slot of [a] is empty
    or holds an array, the permissive [areEqual(a, b)] on an array [b] is
    [true] exactly when the lengths are equal and [a[i] === b[i]] at every
    index; the strict one is [true] in that case and when [a] and [b] are
    one array. *)
Theorem areEqual_arrays_of_primitives (r r' : nat) (c c' : list Class)
      (sa sb : list Slot) :
  flat_slots sa = true ->
  Permissive.areEqual (VArray r c sa) (VArray r' c' sb) =
    Nat.eqb (List.length sa) (List.length sb) && all2 strict_eq sa sb /\
  Strict.areEqual (VArray r c sa) (VArray r' c' sb) =
    Nat.eqb r r'
    || Nat.eqb (List.length sa) (List.length sb) && all2 strict_eq sa sb /\
  TS.areEqual (VArray r c sa) (VArray r' c' sb) =
    Nat.eqb r r'
    || Nat.eqb (List.length sa) (List.length sb) && all2 strict_eq sa sb.
Proof.
  intros Hflat.
  assert (HS : Strict.areEqual (VArray r c sa) (VArray r' c' sb) =
    Nat.eqb r r'
    || Nat.eqb (List.length sa) (List.length sb) && all2 strict_eq sa sb).
  { rewrite strict_areEqual_array. simpl strict_eq. f_equal.
    destruct (Nat.eqb_spec (List.length sa) (List.length sb)) as [Hlen|];
      [|reflexivity].
    simpl andb. rewrite every_from_no_hole by (now apply flat_no_hole).
    rewrite all_from_flat; [|intros v y Hv|exact Hflat].
    - exact (all_from_all2 strict_eq r' c' sa [] sb Hlen).
    - apply strict_areEqual_not_array. now rewrite Hv. }
  split; [|split; exact HS].
  unfold Permissive.areEqual. simpl isArray. simpl andb. cbv iota.
  rewrite permissive_compareArrays_all2.
  destruct (Nat.eqb_spec (List.length sa) (List.length sb)) as [Hlen|];
    [|reflexivity].
  simpl andb.
  rewrite <- (all_from_all2 Permissive.areEqual r' c' sa [] sb Hlen).
  rewrite <- (all_from_all2 strict_eq r' c' sa [] sb Hlen).
  apply all_from_flat; [|exact Hflat].
  intros v y Hv. apply permissive_areEqual_not_array. now rewrite Hv.
Qed.

Lemma areEqual_arrays_of_primitives_witness :
  flat_slots (slots_of one_a) = true /\
  Permissive.areEqual one_a one_a_again = true /\
  Permissive.areEqual one_a one_a_again =
    Nat.eqb (List.length (slots_of one_a)) (List.length (slots_of one_a_again))
    && all2 strict_eq (slots_of one_a) (slots_of one_a_again) /\
  Strict.areEqual one_a one_a_again =
    Nat.eqb 70 71
    || Nat.eqb (List.length (slots_of one_a))
         (List.length (slots_of one_a_again))
       && all2 strict_eq (slots_of one_a) (slots_of one_a_again) /\
  TS.areEqual one_a one_a_again =
    Nat.eqb 70 71
    || Nat.eqb (List.length (slots_of one_a))
         (List.length (slots_of one_a_again))
       && all2 strict_eq (slots_of one_a) (slots_of one_a_again).
Proof.
  split; [reflexivity|]. split; [reflexivity|].
  apply (areEqual_arrays_of_primitives 70 71 [] [] (slots_of one_a)
           (slots_of one_a_again)).
  reflexivity.
Defined.

(** ** Symmetry of [areEqual] *)

(** X16.  In the permissive variant [areEqual] is symmetric on all
    values: [compareArrays] loops by index, so that an empty slot is read
    as [undefined] on either side. *)
Theorem permissive_areEqual_symmetric (a b : Value) :
  Permissive.areEqual a b = Permissive.areEqual b a.
Proof. exact (permissive_areEqual_sym a b). Qed.

(** X17.  In the strict variants [areEqual] is symmetric on arrays without
    empty slot at any depth (and on values that are no arrays). *)
Theorem strict_areEqual_symmetric_dense (a b : Value) :
  dense a = true -> dense b = true ->
  Strict.areEqual a b = Strict.areEqual b a /\
  TS.areEqual a b = TS.areEqual b a.
Proof.
  intros Ha Hb. split; exact (strict_areEqual_sym_dense a b Ha Hb).
Qed.

Lemma strict_areEqual_symmetric_dense_witness :
  dense nested = true /\ dense one_a = true /\
  Strict.areEqual nested one_a = Strict.areEqual one_a nested /\
  TS.areEqual nested one_a = TS.areEqual one_a nested.
Proof.
  split; [reflexivity|]. split; [reflexivity|].
  apply (strict_areEqual_symmetric_dense nested one_a); reflexivity.
Defined.

(** ** The console of the harness *)

Lemma group_depth_app (c1 c2 : Console) (d : nat) :
  group_depth (c1 ++ c2) d = group_depth c2 (group_depth c1 d).
Proof.
  revert d. induction c1 as [|[] c1 IH]; intros d; simpl; auto.
Qed.

Section HarnessFacts.
Variable areEqual : Value -> Value -> bool.

Lemma run_call_logs (console : Console) (c : Call) :
  List.length (filter is_log (run_call areEqual console c)) =
  List.length (filter is_log console) + (if is_testBlock c then 0 else 1).
Proof.
  destruct c as [name|w x y]; simpl; unfold testBlock, test;
    [|destruct (areEqual x y)]; rewrite filter_app, length_app; reflexivity.
Qed.

Lemma run_call_errors (console : Console) (c : Call) :
  List.length (filter is_error (run_call areEqual console c)) =
  List.length (filter is_error console) + (if fails areEqual c then 1 else 0).
Proof.
  destruct c as [name|w x y]; simpl; unfold testBlock, test;
    [|destruct (areEqual x y)]; rewrite filter_app, length_app; reflexivity.
Qed.

Lemma run_call_depth (console : Console) (c : Call) :
  group_depth console 0 <= 1 ->
  group_depth (run_call areEqual console c) 0 =
  if is_testBlock c then 1 else group_depth console 0.
Proof.
  intros Hd. destruct c as [name|w x y]; simpl; unfold testBlock, test;
    [|destruct (areEqual x y)]; rewrite group_depth_app; simpl;
    try reflexivity.
  destruct (group_depth console 0) as [|[|d]]; simpl; lia.
Qed.

Lemma run_output (script : list Call) (console : Console) :
  List.length (filter is_log (run areEqual script console)) =
    List.length (filter is_log console) +
    List.length (filter (fun c => negb (is_testBlock c)) script) /\
  List.length (filter is_error (run areEqual script console)) =
    List.length (filter is_error console) +
    List.length (filter (fails areEqual) script) /\
  (group_depth console 0 <= 1 ->
   group_depth (run areEqual script console) 0 =
   if existsb is_testBlock script then 1 else group_depth console 0).
Proof.
  revert console. induction script as [|c script IH]; intros console.
  - simpl. repeat split; lia.
  - specialize (IH (run_call areEqual console c)).
    destruct IH as (Hlog & Herr & Hdepth).
    change (run areEqual (c :: script) console)
      with (run areEqual script (run_call areEqual console c)).
    rewrite Hlog, Herr, run_call_logs, run_call_errors.
    split; [|split].
    + simpl. destruct (is_testBlock c); simpl; lia.
    + simpl. destruct (fails areEqual c); simpl; lia.
    + intros Hd. pose proof (run_call_depth console c Hd) as Hc.
      rewrite Hdepth by (rewrite Hc; destruct (is_testBlock c); lia).
      rewrite Hc. simpl. destruct (is_testBlock c); simpl;
        [now destruct (existsb is_testBlock script)|reflexivity].
Qed.
End HarnessFacts.

(** X18.  A run of the harness, whatever the sequence of [testBlock] and
    [test] calls: every test logs exactly one line, passed or failed, so a
    failed test does not stop the run; the number of [console.error] calls
    is the number of tests whose values [areEqual] rejects; and the console
    groups never nest, the nesting being 1 once a [testBlock] has been
    called and 0 before.  This holds with the [areEqual] of each
    variant. *)
Theorem harness_run (script : list Call) :
  harness_output Strict.areEqual script /\
  harness_output TS.areEqual script /\
  harness_output Permissive.areEqual script.
Proof.
  unfold harness_output. cbv zeta.
  repeat split;
    match goal with
    | |- context [run ?f script []] =>
        destruct (run_output f script []) as (Hlog & Herr & Hdepth)
    end;
    first [exact Hlog | exact Herr | apply Hdepth; simpl; lia].
Qed.

(** ** The uniformity check against the coarse listing *)

Lemma assigned_no_hole (g : Value -> string) (slots : list Slot) :
  no_hole slots = true ->
  assigned (array_map g slots) = map g (map read slots).
Proof.
  induction slots as [|[v|] rest IH]; simpl; try reflexivity;
    try discriminate.
  intros H. now rewrite IH.
Qed.

Lemma uniform_labels (arr : Value) :
  uniform arr <->
  (forall x y, In x (map getType (items arr)) ->
               In y (map getType (items arr)) -> x = y).
Proof.
  rewrite uniform_pairwise. split.
  - intros H x y Hx Hy. apply in_map_iff in Hx, Hy.
    destruct Hx as (v & <- & Hv), Hy as (w & <- & Hw). now apply H.
  - intros H x y Hx Hy. apply H; now apply in_map.
Qed.

(** X19.  On an array without empty slot [allItemsHaveTheSameType]
    returns [true] exactly when [getTypesOfItems] lists no two different
    labels.  With an empty slot the two part: on [[ , 'a']] the listing
    holds the one label ["string"], while the check reads the slot as
    [undefined] and returns [false].  This holds in the three variants. *)
Theorem allItemsHaveTheSameType_of_listing (arr : Value) :
  isArray arr = true -> no_hole (slots_of arr) = true ->
  uniform_listing Strict.allItemsHaveTheSameType Strict.getTypesOfItems arr /\
  uniform_listing TS.allItemsHaveTheSameType TS.getTypesOfItems arr /\
  uniform_listing Permissive.allItemsHaveTheSameType
    Permissive.getTypesOfItems arr.
Proof.
  intros Harr Hdense.
  destruct (variants_check_uniformity arr Harr)
    as ((bs & Es & Hs) & (bt & Et & Ht) & (bp & Ep & Hp)).
  unfold uniform_listing. rewrite Es, Et, Ep.
  unfold Strict.getTypesOfItems, TS.getTypesOfItems,
    Permissive.getTypesOfItems.
  rewrite Harr. simpl negb. cbv iota.
  repeat split; do 2 eexists; (split; [reflexivity|]);
    (split; [reflexivity|]);
    rewrite (assigned_no_hole _ _ Hdense);
    change (map read (slots_of arr)) with (items arr);
    first [ rewrite Hs | rewrite Ht | rewrite Hp ]; apply uniform_labels.
Qed.

Lemma allItemsHaveTheSameType_of_listing_witness :
  isArray wrapped_string = true /\
  no_hole (slots_of wrapped_string) = true /\
  uniform_listing Strict.allItemsHaveTheSameType Strict.getTypesOfItems
    wrapped_string /\
  uniform_listing TS.allItemsHaveTheSameType TS.getTypesOfItems
    wrapped_string /\
  uniform_listing Permissive.allItemsHaveTheSameType
    Permissive.getTypesOfItems wrapped_string.
Proof.
  split; [reflexivity|]. split; [reflexivity|].
  apply (allItemsHaveTheSameType_of_listing wrapped_string); reflexivity.
Defined.

Example hole_and_string_part :
  Strict.getTypesOfItems hole_and_string = Ok [None; Some "string"] /\
  Strict.allItemsHaveTheSameType hole_and_string = Ok false /\
  Permissive.getTypesOfItems hole_and_string = Ok [None; Some "string"] /\
  Permissive.allItemsHaveTheSameType hole_and_string = Ok false.
Proof. repeat split. Qed.

(** ** An empty result in the permissive variant *)

Lemma count_loop_nil (g : Value -> string) (l : list Value) :
  sort default_compare (count_loop g l []) = [] -> l = [].
Proof.
  intros H.
  assert (Hsum : sum_counts (sort default_compare (count_loop g l [])) =
                 List.length l).
  { unfold sum_counts. rewrite (sum_counts_perm (sort_perm _ _)).
    apply (count_loop_sum g l []). }
  rewrite H in Hsum. simpl in Hsum. symmetry in Hsum.
  now apply length_zero_iff_nil.
Qed.

(** X21.  In the permissive variant an empty result does not tell an
    error from an empty input: [getTypesOfItems], [getRealTypesOfItems]
    and [countRealTypes] return the empty array exactly on the empty array
    and on the values that are no arrays. *)
Theorem permissive_empty_result (v : Value) :
  empty_iff_nothing_to_list Permissive.getTypesOfItems v /\
  empty_iff_nothing_to_list Permissive.getRealTypesOfItems v /\
  empty_iff_nothing_to_list Permissive.countRealTypes v.
Proof.
  unfold empty_iff_nothing_to_list.
  unfold Permissive.getTypesOfItems, Permissive.getRealTypesOfItems,
    Permissive.countRealTypes, array_map, length_of.
  destruct (isArray v); simpl negb; cbv iota zeta.
  - repeat split.
    + intros H. apply Ok_inj, map_eq_nil in H. right. now rewrite H.
    + intros [H|H]; [discriminate|].
      apply length_zero_iff_nil in H. now rewrite H.
    + intros H. apply Ok_inj, map_eq_nil in H. right. now rewrite H.
    + intros [H|H]; [discriminate|].
      apply length_zero_iff_nil in H. now rewrite H.
    + intros H. apply Ok_inj, count_loop_nil in H. right.
      unfold items in H. apply map_eq_nil in H. now rewrite H.
    + intros [H|H]; [discriminate|].
      apply length_zero_iff_nil in H. unfold items. now rewrite H.
  - repeat split; auto.
Qed.
